(** * arigo: the status data model (status.go)

    status.go declares the records that aria2's [tellStatus] answers are
    decoded into, and one adapter, [UNIXTime], whose JSON form is a Unix
    timestamp.  Everything the file does at run time goes through Go's
    [encoding/json], [strconv] and [time] packages, so the development
    first models the parts of those packages that status.go reaches
    (modules [strconv], [time], [json]) and then the declarations of
    status.go itself.

    Conventions.
    - Go's fixed-width integers are [Z] with the wrap-around written out
      ([uint64], [int64]).
    - Go strings and byte slices are [string] (a sequence of bytes).
    - A wire value is a syntactically valid JSON text, represented by its
      value tree [json.value]; number literals keep their text because the
      decoder hands that text to [strconv].  A byte slice given to
      json.Unmarshal is such a text or is rejected by the scanner
      ([json.text]).
    - Decoding mutates its target in place and may go on after an error:
      a decoder takes the old value of its target and the decoder state
      and returns the new value, the new state and the error it stopped
      with, if any. *)

From Stdlib Require Import ZArith String Ascii List Bool Lia.
Import ListNotations.

Local Open Scope string_scope.
Local Open Scope Z_scope.

(** ** Fixed-width integers *)

Definition uint64 (x : Z) : Z := x mod 2 ^ 64.
Definition int64 (x : Z) : Z := (x + 2 ^ 63) mod 2 ^ 64 - 2 ^ 63.

Definition minInt64 : Z := - 2 ^ 63.
Definition maxInt64 : Z := 2 ^ 63 - 1.
Definition maxUint64 : Z := 2 ^ 64 - 1.

Definition is_int64 (x : Z) : Prop := minInt64 <= x <= maxInt64.

Definition byte_of (c : ascii) : Z := Z.of_N (N_of_ascii c).

(** The double quote, byte 34. *)
Definition dquote : ascii := ascii_of_N 34.

(** ** Package strconv (base 10 only) *)

Module strconv.

Inductive NumError := ErrSyntax | ErrRange.

Definition is_digit (c : ascii) : bool :=
  (48 <=? byte_of c) && (byte_of c <=? 57).

(** cutoff is the smallest number such that cutoff*base > maxUint64 *)
Definition cutoff : Z := maxUint64 / 10 + 1.

(** The loop of ParseUint: n is the value read so far.  In base 10 a
    byte that is not a decimal digit ends the parse with a syntax error
    (letters give a digit value >= base, '_' is only legal for base 0). *)
Fixpoint ParseUint_loop (maxVal : Z) (s : string) (n : Z)
  : Z * option NumError :=
  match s with
  | EmptyString => (n, None)
  | String c rest =>
      if is_digit c then
        let d := byte_of c - 48 in
        if cutoff <=? n then (maxVal, Some ErrRange)
        else
          let n' := uint64 (n * 10) in
          let n1 := uint64 (n' + d) in
          if (n1 <? n') || (maxVal <? n1) then (maxVal, Some ErrRange)
          else ParseUint_loop maxVal rest n1
      else (0, Some ErrSyntax)
  end.

Definition ParseUint (s : string) (bitSize : Z) : Z * option NumError :=
  match s with
  | EmptyString => (0, Some ErrSyntax)
  | _ => ParseUint_loop (2 ^ bitSize - 1) s 0
  end.

Definition ParseInt (s : string) (bitSize : Z) : Z * option NumError :=
  match s with
  | EmptyString => (0, Some ErrSyntax)
  | String c rest =>
      let '(neg, s') :=
        if Ascii.eqb c "+"%char then (false, rest)
        else if Ascii.eqb c "-"%char then (true, rest)
        else (false, s) in
      let '(un, err) := ParseUint s' bitSize in
      match err with
      | Some ErrSyntax => (0, Some ErrSyntax)
      | _ =>
          let cutoff := 2 ^ (bitSize - 1) in
          if negb neg && (cutoff <=? un) then (cutoff - 1, Some ErrRange)
          else if neg && (cutoff <? un) then (- cutoff, Some ErrRange)
          else
            let n := int64 un in
            (if neg then int64 (- n) else n, None)
      end
  end.

Definition digit_char (d : Z) : ascii := ascii_of_N (Z.to_N (48 + d)).

(** formatBits, base 10: digits are produced from the least significant
    one, in front of what is already there.  [fuel] bounds the number
    of digits; 20 are enough for a 64-bit value. *)
Fixpoint formatBits (fuel : nat) (u : Z) (a : string) : string :=
  match fuel with
  | O => a
  | S fuel' =>
      if 10 <=? u
      then formatBits fuel' (u / 10) (String (digit_char (u mod 10)) a)
      else String (digit_char u) a
  end.

Definition FormatUint (u : Z) : string := formatBits 20 u "".

Definition FormatInt (i : Z) : string :=
  if i <? 0 then String "-"%char (FormatUint (uint64 (- i)))
  else FormatUint (uint64 i).

Definition FormatBool (b : bool) : string :=
  if b then "true" else "false".

End strconv.

(** ** Package time: the representation of an instant *)

Module time.

(** [loc] is a pointer in Go; [None] is the nil pointer, which means UTC. *)
Inductive Location := Local | NamedLocation (name : string).

Record Time := { wall : Z; ext : Z; loc : option Location }.

Definition zero : Time := {| wall := 0; ext := 0; loc := None |}.

Definition secondsPerDay : Z := 86400.
Definition unixToInternal : Z :=
  (1969 * 365 + 1969 / 4 - 1969 / 100 + 1969 / 400) * secondsPerDay.
Definition internalToUnix : Z := - unixToInternal.
Definition wallToInternal : Z :=
  (1884 * 365 + 1884 / 4 - 1884 / 100 + 1884 / 400) * secondsPerDay.

Definition hasMonotonic : Z := 2 ^ 63.
Definition nsecMask : Z := 2 ^ 30 - 1.
Definition nsecShift : Z := 30.

(** nsec returns the time's nanoseconds. *)
Definition nsec (t : Time) : Z := Z.land (wall t) nsecMask.

(** sec returns the time's seconds since Jan 1 year 1. *)
Definition sec (t : Time) : Z :=
  if Z.land (wall t) hasMonotonic =? 0 then ext t
  else wallToInternal
       + int64 (Z.shiftr (uint64 (Z.shiftl (wall t) 1)) (nsecShift + 1)).

(** The method [Time.Unix]. *)
Definition Time_Unix (t : Time) : Z := int64 (sec t + internalToUnix).

Definition unixTime (sec nsec : Z) : Time :=
  {| wall := uint64 nsec; ext := int64 (sec + unixToInternal);
     loc := Some Local |}.

(** The function [time.Unix]; Go's [/] on integers truncates. *)
Definition Unix (sec nsec : Z) : Time :=
  if (nsec <? 0) || (1000000000 <=? nsec) then
    let n := Z.quot nsec 1000000000 in
    let sec := int64 (sec + n) in
    let nsec := int64 (nsec - n * 1000000000) in
    if nsec <? 0 then unixTime (int64 (sec - 1)) (nsec + 1000000000)
    else unixTime sec nsec
  else unixTime sec nsec.



End time.

(** ** Package encoding/json: values, errors, the decoder state *)

Module json.

(** A wire value.  [Number] keeps the literal's text, [Str] and the
    member names of [Object] hold the unquoted string. *)
#[local] Unset Elimination Schemes.
Inductive value :=
| Null
| Bool (b : bool)
| Number (lit : string)
| Str (s : string)
| Array (elems : list value)
| Object (members : list (string * value)).
#[local] Set Elimination Schemes.

(** The byte slice handed to Unmarshal: checkValid either rejects it with
    a SyntaxError, or it is the text of one JSON value. *)
Inductive text :=
| Invalid (msg : string)
| Valid (v : value).

(** The errors of Unmarshal.  [Type_] is the name of the Go type that was
    being filled. *)
Inductive error :=
| SyntaxError (msg : string)
| UnmarshalTypeError (Value : string) (Type_ : string)
    (* json: cannot unmarshal Value into Go value of type Type_ *)
| InvalidStringTag (item : string) (Type_ : string)
    (* json: invalid use of ,string struct tag, trying to unmarshal
       item into Type_ *)
| InvalidStringTagUnquoted (Type_ : string)
    (* json: invalid use of ,string struct tag, trying to unmarshal
       unquoted value into Type_ *)
| OtherError (msg : string).

(** An UnmarshalTypeError is the package's report of a type mismatch. *)
Definition is_type_mismatch (e : error) : bool :=
  match e with UnmarshalTypeError _ _ => true | _ => false end.

Record decodeState := { savedError : option error }.

Definition init : decodeState := {| savedError := None |}.

(** saveError saves the first err it is called with, for reporting at
    the end of the unmarshal. *)
Definition saveError (d : decodeState) (err : error) : decodeState :=
  match savedError d with
  | None => {| savedError := Some err |}
  | Some _ => d
  end.

(** What a decoding step gives back: the target after the step, the
    decoder state, and the error that aborts the decode, if any. *)
Definition outcome (T : Type) : Type := (T * decodeState * option error)%type.
Definition decoder (T : Type) : Type := value -> T -> decodeState -> outcome T.

Definition saved {T} (v : T) (d : decodeState) (err : error) : outcome T :=
  (v, saveError d err, None).
Definition fatal {T} (v : T) (d : decodeState) (err : error) : outcome T :=
  (v, d, Some err).

(** Unmarshal: "Check for well-formedness.  Avoids filling out half a
    data structure before discovering a JSON syntax error."  Then run the
    decoder on a fresh state; an aborting error wins over a saved one. *)
Definition Unmarshal {T} (dec : decoder T) (data : text) (v : T)
  : T * option error :=
  match data with
  | Invalid msg => (v, Some (SyntaxError msg))
  | Valid j =>
      let '(v', d, err) := dec j v init in
      match err with
      | Some e => (v', Some e)
      | None => (v', savedError d)
      end
  end.

(** *** reflect: the kinds that occur in status.go *)

Inductive Kind := KBool | KInt (bits : Z) | KUint (bits : Z) | KString
                | KSlice | KStruct.

(** typeFields: "Only strings, floats, integers, and booleans can be
    quoted."  [opt_string] says whether the tag has the string option. *)
Definition quoted (opt_string : bool) (k : Kind) : bool :=
  opt_string &&
  match k with
  | KBool | KInt _ | KUint _ | KString => true
  | KSlice | KStruct => false
  end.

(** The kinds literalStore is modelled for, with the Rocq type that
    holds their values. *)
Inductive basic := BBool | BInt (bits : Z) | BUint (bits : Z).

Definition kind_of (k : basic) : Kind :=
  match k with BBool => KBool | BInt b => KInt b | BUint b => KUint b end.

Definition carrier (k : basic) : Type :=
  match k with BBool => bool | BInt _ | BUint _ => Z end.

(** reflect.Value.OverflowInt / OverflowUint for a kind of [bits] bits. *)
Definition OverflowInt (bits x : Z) : bool :=
  negb (x =? Z.shiftr (int64 (Z.shiftl x (64 - bits))) (64 - bits)).
Definition OverflowUint (bits x : Z) : bool :=
  negb (x =? Z.shiftr (uint64 (Z.shiftl x (64 - bits))) (64 - bits)).

(** *** literalStore *)

(** What the first byte of [item] announces. *)
Inductive literal :=
| LitNull | LitBool (b : bool) | LitString | LitNumber (s : string).

(** The switch on v.Kind() inside each case of literalStore, for a
    target of a basic kind.  [item] is only used in error texts. *)
Definition literalStore (k : basic) (ty : string) (l : literal)
    (item : string) (fromQuoted : bool)
  : carrier k -> decodeState -> outcome (carrier k) :=
  match l with
  | LitNull =>
      (* "otherwise, ignore null for primitives/string" *)
      fun v d => (v, d, None)
  | LitBool b =>
      match k return carrier k -> decodeState -> outcome (carrier k) with
      | BBool => fun _ d => (b, d, None)
      | _ => fun v d =>
          if fromQuoted then saved v d (InvalidStringTag item ty)
          else saved v d (UnmarshalTypeError "bool" ty)
      end
  | LitString =>
      fun v d => saved v d (UnmarshalTypeError "string" ty)
  | LitNumber s =>
      match k return carrier k -> decodeState -> outcome (carrier k) with
      | BBool => fun v d =>
          if fromQuoted then fatal v d (InvalidStringTag item ty)
          else saved v d (UnmarshalTypeError "number" ty)
      | BInt bits => fun v d =>
          let '(n, err) := strconv.ParseInt s 64 in
          match err with
          | Some _ => saved v d (UnmarshalTypeError ("number " ++ s) ty)
          | None =>
              if OverflowInt bits n
              then saved v d (UnmarshalTypeError ("number " ++ s) ty)
              else (n, d, None)
          end
      | BUint bits => fun v d =>
          let '(n, err) := strconv.ParseUint s 64 in
          match err with
          | Some _ => saved v d (UnmarshalTypeError ("number " ++ s) ty)
          | None =>
              if OverflowUint bits n
              then saved v d (UnmarshalTypeError ("number " ++ s) ty)
              else (n, d, None)
          end
      end
  end.

Definition is_hex (c : ascii) : bool :=
  let b := byte_of c in
  ((48 <=? b) && (b <=? 57)) || ((97 <=? b) && (b <=? 102))
  || ((65 <=? b) && (b <=? 70)).

(** unquoteBytes, as far as its [ok] result goes: [s] is what follows
    the opening quote.  The closing quote must be the last byte; a
    backslash must start one of the escapes; control characters are
    invalid. *)
Fixpoint unquote_rest_ok (s : string) : bool :=
  match s with
  | EmptyString => false
  | String c rest =>
      if Ascii.eqb c dquote then
        match rest with EmptyString => true | _ => false end
      else if Ascii.eqb c "\"%char then
        match rest with
        | String e rest' =>
            if Ascii.eqb e "u"%char then
              match rest' with
              | String h1 (String h2 (String h3 (String h4 rest''))) =>
                  is_hex h1 && is_hex h2 && is_hex h3 && is_hex h4
                  && unquote_rest_ok rest''
              | _ => false
              end
            else if existsb (Ascii.eqb e)
                      (dquote :: list_ascii_of_string "\/'bfnrt")
            then unquote_rest_ok rest'
            else false
        | EmptyString => false
        end
      else if byte_of c <? 32 then false
      else unquote_rest_ok rest
  end.

Definition unquoteBytes_ok (item : string) : bool :=
  match item with
  | String c rest => Ascii.eqb c dquote && unquote_rest_ok rest
  | EmptyString => false
  end.

(** literalStore(item, v, true): [item] is the content of a JSON string
    and "could be anything"; the guards on it come before the switch on
    the kind. *)
Definition literalStore_fromQuoted (k : basic) (ty : string)
    (item : string) : carrier k -> decodeState -> outcome (carrier k) :=
  match item with
  | EmptyString => fun v d => saved v d (InvalidStringTag item ty)
  | String c _ =>
      if Ascii.eqb c "n"%char then
        if String.eqb item "null"
        then literalStore k ty LitNull item true
        else fun v d => saved v d (InvalidStringTag item ty)
      else if Ascii.eqb c "t"%char || Ascii.eqb c "f"%char then
        if String.eqb item "true" || String.eqb item "false"
        then literalStore k ty (LitBool (Ascii.eqb c "t"%char)) item true
        else fun v d => saved v d (InvalidStringTag item ty)
      else if Ascii.eqb c dquote then
        if unquoteBytes_ok item
        then literalStore k ty LitString item true
        else fun v d => fatal v d (InvalidStringTag item ty)
      else if Ascii.eqb c "-"%char || strconv.is_digit c then
        literalStore k ty (LitNumber item) item true
      else fun v d => fatal v d (InvalidStringTag item ty)
  end.

(** d.value for a target of a basic kind that is not an Unmarshaler. *)
Definition value_basic (k : basic) (ty : string) : decoder (carrier k) :=
  fun j =>
    match j with
    | Null => literalStore k ty LitNull "null" false
    | Bool b => literalStore k ty (LitBool b) (strconv.FormatBool b) false
    | Number s => literalStore k ty (LitNumber s) s false
    | Str _ => literalStore k ty LitString "" false
    | Array _ => fun v d => saved v d (UnmarshalTypeError "array" ty)
    | Object _ => fun v d => saved v d (UnmarshalTypeError "object" ty)
    end.

(** d.value for a target of kind String. *)
Definition value_string (ty : string) : decoder string :=
  fun j v d =>
    match j with
    | Null => (v, d, None)
    | Bool _ => saved v d (UnmarshalTypeError "bool" ty)
    | Number _ => saved v d (UnmarshalTypeError "number" ty)
    | Str s => (s, d, None)
    | Array _ => saved v d (UnmarshalTypeError "array" ty)
    | Object _ => saved v d (UnmarshalTypeError "object" ty)
    end.

(** valueQuoted: "If it finds anything other than a quoted string
    literal or null, valueQuoted returns unquotedValue{}". *)
Inductive quotedValue := QNil | QString (qv : string) | QUnquoted.

Definition valueQuoted (j : value) : quotedValue :=
  match j with
  | Null => QNil
  | Str s => QString s
  | _ => QUnquoted
  end.

(** The [destring] branch of d.object for a field of a basic kind. *)
Definition value_destring (k : basic) (ty : string) : decoder (carrier k) :=
  fun j v d =>
    match valueQuoted j with
    | QNil => literalStore k ty LitNull "null" false v d
    | QString qv => literalStore_fromQuoted k ty qv v d
    | QUnquoted => saved v d (InvalidStringTagUnquoted ty)
    end.

(** A struct field of a basic kind: d.object picks the branch by the
    field's [quoted] flag, which typeFields computed from tag and kind. *)
Definition field_basic (opt_string : bool) (k : basic) (ty : string)
  : decoder (carrier k) :=
  if quoted opt_string (kind_of k) then value_destring k ty
  else value_basic k ty.

(** d.value for a target that implements Unmarshaler: the text of every
    JSON value is handed to UnmarshalJSON, whose error aborts the decode. *)
Definition value_Unmarshaler {T}
    (UnmarshalJSON : T -> text -> T * option error) : decoder T :=
  fun j v d => let '(v', err) := UnmarshalJSON v (Valid j) in (v', d, err).

(** *** Slices *)

(** A slice is nil ([None]) or holds elements.  Its capacity is not
    modelled: an element that d.array adds beyond the old length starts
    from the zero value. *)
Definition slice (T : Type) : Type := option (list T).

(** The loop of d.array: element i of the JSON array is decoded into
    element i of the slice, which is the old element if there was one.
    After the last element the slice is cut to the number of elements
    read; an aborting error leaves the rest of the old slice in place. *)
Fixpoint array_loop {T} (dec : decoder T) (zero : T) (elems : list value)
    (old : list T) (d : decodeState) : outcome (list T) :=
  match elems with
  | [] => ([], d, None)
  | j :: rest =>
      let '(cur, old') :=
        match old with [] => (zero, []) | x :: xs => (x, xs) end in
      let '(x', d', err) := dec j cur d in
      match err with
      | Some e => (x' :: old', d', Some e)
      | None =>
          let '(l, d'', err') := array_loop dec zero rest old' d' in
          (x' :: l, d'', err')
      end
  end.

(** d.value for a target slice whose elements are not bytes. *)
Definition value_slice {T} (dec : decoder T) (zero : T) (ty : string)
  : decoder (slice T) :=
  fun j v d =>
    match j with
    | Null => (None, d, None)
    | Array elems =>
        let '(l, d', err) :=
          array_loop dec zero elems
            (match v with None => [] | Some l => l end) d in
        (Some l, d', err)
    | Bool _ => saved v d (UnmarshalTypeError "bool" ty)
    | Number _ => saved v d (UnmarshalTypeError "number" ty)
    | Str _ => saved v d (UnmarshalTypeError "string" ty)
    | Object _ => saved v d (UnmarshalTypeError "object" ty)
    end.

(** *** Structs: matching a member name against the field names *)

Definition caseMask : Z := 223. (* ^byte(0x20) *)

Definition is_letter (b : Z) : bool :=
  (65 <=? Z.land b caseMask) && (Z.land b caseMask <=? 90).

(** simpleLetterEqualFold: s is all ASCII letters, no 'K' or 'S'. *)
Fixpoint simpleLetterEqualFold (s t : string) : bool :=
  match s, t with
  | EmptyString, EmptyString => true
  | String sb s', String tb t' =>
      (Z.land (byte_of sb) caseMask =? Z.land (byte_of tb) caseMask)
      && simpleLetterEqualFold s' t'
  | _, _ => false
  end.

(** asciiEqualFold: s is all ASCII, no 'K' or 'S'. *)
Fixpoint asciiEqualFold (s t : string) : bool :=
  match s, t with
  | EmptyString, EmptyString => true
  | String sb s', String tb t' =>
      (Ascii.eqb sb tb
       || (is_letter (byte_of sb)
           && (Z.land (byte_of sb) caseMask =? Z.land (byte_of tb) caseMask)))
      && asciiEqualFold s' t'
  | _, _ => false
  end.

(** equalFoldRight: s is all ASCII; in t the Kelvin sign U+212A also
    matches k and the long s U+017F also matches s. *)
Fixpoint equalFoldRight (s t : string) : bool :=
  match s with
  | EmptyString => match t with EmptyString => true | _ => false end
  | String sb s' =>
      match t with
      | EmptyString => false
      | String tb t' =>
          if byte_of tb <? 128 then
            (Ascii.eqb sb tb
             || (is_letter (byte_of sb)
                 && (Z.land (byte_of sb) caseMask
                     =? Z.land (byte_of tb) caseMask)))
            && equalFoldRight s' t'
          else if Z.land (byte_of sb) caseMask =? 83 (* 's', 'S' *) then
            match t with
            | String b1 (String b2 t'') =>
                (byte_of b1 =? 197) && (byte_of b2 =? 191)
                && equalFoldRight s' t''
            | _ => false
            end
          else if Z.land (byte_of sb) caseMask =? 75 (* 'k', 'K' *) then
            match t with
            | String b1 (String b2 (String b3 t'')) =>
                (byte_of b1 =? 226) && (byte_of b2 =? 132)
                && (byte_of b3 =? 170) && equalFoldRight s' t''
            | _ => false
            end
          else false
      end
  end.

(** foldFunc picks the comparison by the letters of the field name.
    Every field name of status.go is ASCII, so the choice is among the
    three functions above. *)
Definition foldFunc (s : string) : string -> string -> bool :=
  let bs := map byte_of (list_ascii_of_string s) in
  if existsb (fun b => (Z.land b caseMask =? 75) || (Z.land b caseMask =? 83)) bs
  then equalFoldRight
  else if existsb (fun b => negb (is_letter b)) bs then asciiEqualFold
  else simpleLetterEqualFold.

(** d.object: "Found an exact name match", else "fall back to the
    expensive case-insensitive linear search" in field order. *)
Definition find_field {F} (name : F -> string) (fields : list F)
    (key : string) : option F :=
  match find (fun f => String.eqb (name f) key) fields with
  | Some f => Some f
  | None => find (fun f => foldFunc (name f) (name f) key) fields
  end.

(** The member loop of d.object: a member whose name matches no field
    is skipped; an aborting error stops the loop. *)
Fixpoint object_loop {S F} (lookup : string -> option F)
    (field : F -> decoder S) (members : list (string * value))
    (s : S) (d : decodeState) : outcome S :=
  match members with
  | [] => (s, d, None)
  | (key, j) :: rest =>
      match lookup key with
      | None => object_loop lookup field rest s d
      | Some f =>
          let '(s', d', err) := field f j s d in
          match err with
          | Some e => (s', d', Some e)
          | None => object_loop lookup field rest s' d'
          end
      end
  end.

(** d.value for a target struct that is not an Unmarshaler. *)
Definition value_struct {S F} (ty : string) (lookup : string -> option F)
    (field : F -> decoder S) : decoder S :=
  fun j s d =>
    match j with
    | Null => (s, d, None)
    | Object members => object_loop lookup field members s d
    | Bool _ => saved s d (UnmarshalTypeError "bool" ty)
    | Number _ => saved s d (UnmarshalTypeError "number" ty)
    | Str _ => saved s d (UnmarshalTypeError "string" ty)
    | Array _ => saved s d (UnmarshalTypeError "array" ty)
    end.

(** Decoding into a field: read it, decode, write it back. *)
Definition into {S T} (get : S -> T) (set : T -> S -> S) (dec : decoder T)
  : decoder S :=
  fun j s d => let '(x, d', err) := dec j (get s) d in (set x s, d', err).

(** *** Encoding *)

(** boolEncoder, intEncoder, uintEncoder: with opts.quoted the text is
    put between double quotes. *)
Definition encode_basic (k : basic) (is_quoted : bool)
  : carrier k -> value :=
  match k return carrier k -> value with
  | BBool => fun b =>
      if is_quoted then Str (strconv.FormatBool b) else Bool b
  | BInt _ => fun n =>
      if is_quoted then Str (strconv.FormatInt n)
      else Number (strconv.FormatInt n)
  | BUint _ => fun n =>
      if is_quoted then Str (strconv.FormatUint n)
      else Number (strconv.FormatUint n)
  end.

Definition encode_field_basic (opt_string : bool) (k : basic)
  : carrier k -> value :=
  encode_basic k (quoted opt_string (kind_of k)).

(** sliceEncoder: a nil slice is written as null. *)
Definition encode_slice {T} (enc : T -> value) (v : slice T) : value :=
  match v with
  | None => Null
  | Some l => Array (map enc l)
  end.

(** Looking a member up in an encoded object. *)
Fixpoint assoc (key : string) (members : list (string * value))
  : option value :=
  match members with
  | [] => None
  | (k, v) :: rest => if String.eqb k key then Some v else assoc key rest
  end.

Definition member (key : string) (j : value) : option value :=
  match j with
  | Object members => assoc key members
  | _ => None
  end.

End json.

(** A JSON value stands for its text where a byte slice is expected. *)
Coercion json.Valid : json.value >-> json.text.

(** ** status.go: UNIXTime *)

(** UNIXTime is just time.Time but it marshals to a Unix timestamp. *)
Record UNIXTime := { Time : time.Time }.

(** json.Marshal(t.Unix()): an int64 is written as its decimal text and
    cannot fail. *)
Definition json_Marshal_int64 (i : Z) : json.value * option json.error :=
  (json.Number (strconv.FormatInt i), None).

(** json.Unmarshal(data, &ts) for [var ts int64]. *)
Definition json_Unmarshal_int64 (data : json.text) (ts : Z)
  : Z * option json.error :=
  json.Unmarshal (json.value_basic (json.BInt 64) "int64") data ts.

Definition UNIXTime_MarshalJSON (t : UNIXTime)
  : json.value * option json.error :=
  json_Marshal_int64 (time.Time_Unix (Time t)).

(** The receiver is a pointer: the result pairs the receiver after the
    call with the returned error. *)
Definition UNIXTime_UnmarshalJSON (t : UNIXTime) (data : json.text)
  : UNIXTime * option json.error :=
  let ts := 0 in
  let '(ts, err) := json_Unmarshal_int64 data ts in
  match err with
  | Some e => (t, Some e)
  | None => ({| Time := time.Unix ts 0 |}, None)
  end.

(** ** status.go: the declarations *)

(** The width of Go's [uint] on the platform the package is built for. *)
Class Platform := {
  uintSize : Z;
  uintSize_cases : uintSize = 32 \/ uintSize = 64 }.

(** Types that status.go uses and the package declares in other files
    (ExitStatus, File, URI).  Each comes with its zero value and with what
    encoding/json does for a field of that type: [ErrorCode_decode] and
    [ErrorCode_encode] are for the field [ErrorCode], tag included;
    the others are for a value of the type.  They are plain data, their
    encoding cannot fail. *)
Class Absent := {
  ExitStatus : Type;
  ExitStatus_zero : ExitStatus;
  ErrorCode_decode : json.decoder ExitStatus;
  ErrorCode_encode : ExitStatus -> json.value;
  File : Type;
  File_zero : File;
  File_decode : json.decoder File;
  File_encode : File -> json.value;
  URI : Type;
  URI_zero : URI;
  URI_decode : json.decoder URI;
  URI_encode : URI -> json.value }.

(** DownloadStatus represents the status of a download. *)
Definition DownloadStatus : Type := string.

Definition StatusActive : DownloadStatus := "active".
Definition StatusWaiting : DownloadStatus := "waiting".
Definition StatusPaused : DownloadStatus := "paused".
Definition StatusError : DownloadStatus := "error".
Definition StatusCompleted : DownloadStatus := "completed".
Definition StatusRemoved : DownloadStatus := "removed".

Definition DownloadStatus_variants : list DownloadStatus :=
  [StatusActive; StatusWaiting; StatusPaused; StatusError; StatusCompleted;
   StatusRemoved].

(** TorrentMode represents the file mode of the torrent. *)
Definition TorrentMode : Type := string.

Definition TorrentModeSingle : TorrentMode := "single".
Definition TorrentModeMulti : TorrentMode := "multi".

Definition TorrentMode_variants : list TorrentMode :=
  [TorrentModeSingle; TorrentModeMulti].

(** A BitTorrentStatusInfo holds information from the info dictionary. *)
Record BitTorrentStatusInfo := { Name : string }.

Section Declarations.

Context {platform : Platform} {absent : Absent}.

(** BitTorrentStatus holds information for a BitTorrent download. *)
Record BitTorrentStatus := {
  AnnounceList : json.slice URI;
  Comment : string;
  CreationDateUNIX : UNIXTime; (* `json:",string"` *)
  Mode : TorrentMode;
  Info : BitTorrentStatusInfo }.

(** Status holds information for a download.  The field [Status] of the
    Go struct is [Status_] here.  The fields of kind uint and bool and the
    field ErrorCode carry the tag `json:",string"`. *)
Record Status := {
  GID : string;
  Status_ : DownloadStatus;
  TotalLength : Z;
  CompletedLength : Z;
  UploadLength : Z;
  BitField : string;
  DownloadSpeed : Z;
  UploadSpeed : Z;
  InfoHash : string;
  NumSeeders : Z;
  Seeder : bool;
  PieceLength : Z;
  NumPieces : Z;
  Connections : Z;
  ErrorCode : ExitStatus;
  ErrorMessage : string;
  FollowedBy : json.slice string;
  Following : string;
  BelongsTo : string;
  Dir : string;
  Files : json.slice File;
  BitTorrent : BitTorrentStatus;
  VerifiedLength : Z;
  VerifyIntegrityPending : bool }.

(** The zero values, what [var s Status] holds. *)
Definition UNIXTime_zero : UNIXTime := {| Time := time.zero |}.

Definition BitTorrentStatus_zero : BitTorrentStatus :=
  {| AnnounceList := None; Comment := ""; CreationDateUNIX := UNIXTime_zero;
     Mode := ""; Info := {| Name := "" |} |}.

Definition Status_zero : Status :=
  {| GID := ""; Status_ := ""; TotalLength := 0; CompletedLength := 0;
     UploadLength := 0; BitField := ""; DownloadSpeed := 0; UploadSpeed := 0;
     InfoHash := ""; NumSeeders := 0; Seeder := false; PieceLength := 0;
     NumPieces := 0; Connections := 0; ErrorCode := ExitStatus_zero;
     ErrorMessage := ""; FollowedBy := None; Following := "";
     BelongsTo := ""; Dir := ""; Files := None;
     BitTorrent := BitTorrentStatus_zero; VerifiedLength := 0;
     VerifyIntegrityPending := false |}.

(** Assignments to one field. *)
Definition set_Name (x : string) (s : BitTorrentStatusInfo)
  : BitTorrentStatusInfo := {| Name := x |}.
Definition set_AnnounceList (x : json.slice URI) (s : BitTorrentStatus)
  : BitTorrentStatus :=
  {| AnnounceList := x; Comment := Comment s; CreationDateUNIX :=
     CreationDateUNIX s; Mode := Mode s; Info := Info s |}.
Definition set_Comment (x : string) (s : BitTorrentStatus)
  : BitTorrentStatus :=
  {| AnnounceList := AnnounceList s; Comment := x; CreationDateUNIX :=
     CreationDateUNIX s; Mode := Mode s; Info := Info s |}.
Definition set_CreationDateUNIX (x : UNIXTime) (s : BitTorrentStatus)
  : BitTorrentStatus :=
  {| AnnounceList := AnnounceList s; Comment := Comment s; CreationDateUNIX
     := x; Mode := Mode s; Info := Info s |}.
Definition set_Mode (x : TorrentMode) (s : BitTorrentStatus)
  : BitTorrentStatus :=
  {| AnnounceList := AnnounceList s; Comment := Comment s; CreationDateUNIX
     := CreationDateUNIX s; Mode := x; Info := Info s |}.
Definition set_Info (x : BitTorrentStatusInfo) (s : BitTorrentStatus)
  : BitTorrentStatus :=
  {| AnnounceList := AnnounceList s; Comment := Comment s; CreationDateUNIX
     := CreationDateUNIX s; Mode := Mode s; Info := x |}.
Definition set_GID (x : string) (s : Status) : Status :=
  {| GID := x; Status_ := Status_ s; TotalLength := TotalLength s;
     CompletedLength := CompletedLength s; UploadLength := UploadLength s;
     BitField := BitField s; DownloadSpeed := DownloadSpeed s; UploadSpeed
     := UploadSpeed s; InfoHash := InfoHash s; NumSeeders := NumSeeders s;
     Seeder := Seeder s; PieceLength := PieceLength s; NumPieces :=
     NumPieces s; Connections := Connections s; ErrorCode := ErrorCode s;
     ErrorMessage := ErrorMessage s; FollowedBy := FollowedBy s; Following
     := Following s; BelongsTo := BelongsTo s; Dir := Dir s; Files := Files
     s; BitTorrent := BitTorrent s; VerifiedLength := VerifiedLength s;
     VerifyIntegrityPending := VerifyIntegrityPending s |}.
Definition set_Status (x : DownloadStatus) (s : Status) : Status :=
  {| GID := GID s; Status_ := x; TotalLength := TotalLength s;
     CompletedLength := CompletedLength s; UploadLength := UploadLength s;
     BitField := BitField s; DownloadSpeed := DownloadSpeed s; UploadSpeed
     := UploadSpeed s; InfoHash := InfoHash s; NumSeeders := NumSeeders s;
     Seeder := Seeder s; PieceLength := PieceLength s; NumPieces :=
     NumPieces s; Connections := Connections s; ErrorCode := ErrorCode s;
     ErrorMessage := ErrorMessage s; FollowedBy := FollowedBy s; Following
     := Following s; BelongsTo := BelongsTo s; Dir := Dir s; Files := Files
     s; BitTorrent := BitTorrent s; VerifiedLength := VerifiedLength s;
     VerifyIntegrityPending := VerifyIntegrityPending s |}.
Definition set_TotalLength (x : Z) (s : Status) : Status :=
  {| GID := GID s; Status_ := Status_ s; TotalLength := x; CompletedLength
     := CompletedLength s; UploadLength := UploadLength s; BitField :=
     BitField s; DownloadSpeed := DownloadSpeed s; UploadSpeed :=
     UploadSpeed s; InfoHash := InfoHash s; NumSeeders := NumSeeders s;
     Seeder := Seeder s; PieceLength := PieceLength s; NumPieces :=
     NumPieces s; Connections := Connections s; ErrorCode := ErrorCode s;
     ErrorMessage := ErrorMessage s; FollowedBy := FollowedBy s; Following
     := Following s; BelongsTo := BelongsTo s; Dir := Dir s; Files := Files
     s; BitTorrent := BitTorrent s; VerifiedLength := VerifiedLength s;
     VerifyIntegrityPending := VerifyIntegrityPending s |}.
Definition set_CompletedLength (x : Z) (s : Status) : Status :=
  {| GID := GID s; Status_ := Status_ s; TotalLength := TotalLength s;
     CompletedLength := x; UploadLength := UploadLength s; BitField :=
     BitField s; DownloadSpeed := DownloadSpeed s; UploadSpeed :=
     UploadSpeed s; InfoHash := InfoHash s; NumSeeders := NumSeeders s;
     Seeder := Seeder s; PieceLength := PieceLength s; NumPieces :=
     NumPieces s; Connections := Connections s; ErrorCode := ErrorCode s;
     ErrorMessage := ErrorMessage s; FollowedBy := FollowedBy s; Following
     := Following s; BelongsTo := BelongsTo s; Dir := Dir s; Files := Files
     s; BitTorrent := BitTorrent s; VerifiedLength := VerifiedLength s;
     VerifyIntegrityPending := VerifyIntegrityPending s |}.
Definition set_UploadLength (x : Z) (s : Status) : Status :=
  {| GID := GID s; Status_ := Status_ s; TotalLength := TotalLength s;
     CompletedLength := CompletedLength s; UploadLength := x; BitField :=
     BitField s; DownloadSpeed := DownloadSpeed s; UploadSpeed :=
     UploadSpeed s; InfoHash := InfoHash s; NumSeeders := NumSeeders s;
     Seeder := Seeder s; PieceLength := PieceLength s; NumPieces :=
     NumPieces s; Connections := Connections s; ErrorCode := ErrorCode s;
     ErrorMessage := ErrorMessage s; FollowedBy := FollowedBy s; Following
     := Following s; BelongsTo := BelongsTo s; Dir := Dir s; Files := Files
     s; BitTorrent := BitTorrent s; VerifiedLength := VerifiedLength s;
     VerifyIntegrityPending := VerifyIntegrityPending s |}.
Definition set_BitField (x : string) (s : Status) : Status :=
  {| GID := GID s; Status_ := Status_ s; TotalLength := TotalLength s;
     CompletedLength := CompletedLength s; UploadLength := UploadLength s;
     BitField := x; DownloadSpeed := DownloadSpeed s; UploadSpeed :=
     UploadSpeed s; InfoHash := InfoHash s; NumSeeders := NumSeeders s;
     Seeder := Seeder s; PieceLength := PieceLength s; NumPieces :=
     NumPieces s; Connections := Connections s; ErrorCode := ErrorCode s;
     ErrorMessage := ErrorMessage s; FollowedBy := FollowedBy s; Following
     := Following s; BelongsTo := BelongsTo s; Dir := Dir s; Files := Files
     s; BitTorrent := BitTorrent s; VerifiedLength := VerifiedLength s;
     VerifyIntegrityPending := VerifyIntegrityPending s |}.
Definition set_DownloadSpeed (x : Z) (s : Status) : Status :=
  {| GID := GID s; Status_ := Status_ s; TotalLength := TotalLength s;
     CompletedLength := CompletedLength s; UploadLength := UploadLength s;
     BitField := BitField s; DownloadSpeed := x; UploadSpeed := UploadSpeed
     s; InfoHash := InfoHash s; NumSeeders := NumSeeders s; Seeder := Seeder
     s; PieceLength := PieceLength s; NumPieces := NumPieces s; Connections
     := Connections s; ErrorCode := ErrorCode s; ErrorMessage :=
     ErrorMessage s; FollowedBy := FollowedBy s; Following := Following s;
     BelongsTo := BelongsTo s; Dir := Dir s; Files := Files s; BitTorrent :=
     BitTorrent s; VerifiedLength := VerifiedLength s;
     VerifyIntegrityPending := VerifyIntegrityPending s |}.
Definition set_UploadSpeed (x : Z) (s : Status) : Status :=
  {| GID := GID s; Status_ := Status_ s; TotalLength := TotalLength s;
     CompletedLength := CompletedLength s; UploadLength := UploadLength s;
     BitField := BitField s; DownloadSpeed := DownloadSpeed s; UploadSpeed
     := x; InfoHash := InfoHash s; NumSeeders := NumSeeders s; Seeder :=
     Seeder s; PieceLength := PieceLength s; NumPieces := NumPieces s;
     Connections := Connections s; ErrorCode := ErrorCode s; ErrorMessage :=
     ErrorMessage s; FollowedBy := FollowedBy s; Following := Following s;
     BelongsTo := BelongsTo s; Dir := Dir s; Files := Files s; BitTorrent :=
     BitTorrent s; VerifiedLength := VerifiedLength s;
     VerifyIntegrityPending := VerifyIntegrityPending s |}.
Definition set_InfoHash (x : string) (s : Status) : Status :=
  {| GID := GID s; Status_ := Status_ s; TotalLength := TotalLength s;
     CompletedLength := CompletedLength s; UploadLength := UploadLength s;
     BitField := BitField s; DownloadSpeed := DownloadSpeed s; UploadSpeed
     := UploadSpeed s; InfoHash := x; NumSeeders := NumSeeders s; Seeder :=
     Seeder s; PieceLength := PieceLength s; NumPieces := NumPieces s;
     Connections := Connections s; ErrorCode := ErrorCode s; ErrorMessage :=
     ErrorMessage s; FollowedBy := FollowedBy s; Following := Following s;
     BelongsTo := BelongsTo s; Dir := Dir s; Files := Files s; BitTorrent :=
     BitTorrent s; VerifiedLength := VerifiedLength s;
     VerifyIntegrityPending := VerifyIntegrityPending s |}.
Definition set_NumSeeders (x : Z) (s : Status) : Status :=
  {| GID := GID s; Status_ := Status_ s; TotalLength := TotalLength s;
     CompletedLength := CompletedLength s; UploadLength := UploadLength s;
     BitField := BitField s; DownloadSpeed := DownloadSpeed s; UploadSpeed
     := UploadSpeed s; InfoHash := InfoHash s; NumSeeders := x; Seeder :=
     Seeder s; PieceLength := PieceLength s; NumPieces := NumPieces s;
     Connections := Connections s; ErrorCode := ErrorCode s; ErrorMessage :=
     ErrorMessage s; FollowedBy := FollowedBy s; Following := Following s;
     BelongsTo := BelongsTo s; Dir := Dir s; Files := Files s; BitTorrent :=
     BitTorrent s; VerifiedLength := VerifiedLength s;
     VerifyIntegrityPending := VerifyIntegrityPending s |}.
Definition set_Seeder (x : bool) (s : Status) : Status :=
  {| GID := GID s; Status_ := Status_ s; TotalLength := TotalLength s;
     CompletedLength := CompletedLength s; UploadLength := UploadLength s;
     BitField := BitField s; DownloadSpeed := DownloadSpeed s; UploadSpeed
     := UploadSpeed s; InfoHash := InfoHash s; NumSeeders := NumSeeders s;
     Seeder := x; PieceLength := PieceLength s; NumPieces := NumPieces s;
     Connections := Connections s; ErrorCode := ErrorCode s; ErrorMessage :=
     ErrorMessage s; FollowedBy := FollowedBy s; Following := Following s;
     BelongsTo := BelongsTo s; Dir := Dir s; Files := Files s; BitTorrent :=
     BitTorrent s; VerifiedLength := VerifiedLength s;
     VerifyIntegrityPending := VerifyIntegrityPending s |}.
Definition set_PieceLength (x : Z) (s : Status) : Status :=
  {| GID := GID s; Status_ := Status_ s; TotalLength := TotalLength s;
     CompletedLength := CompletedLength s; UploadLength := UploadLength s;
     BitField := BitField s; DownloadSpeed := DownloadSpeed s; UploadSpeed
     := UploadSpeed s; InfoHash := InfoHash s; NumSeeders := NumSeeders s;
     Seeder := Seeder s; PieceLength := x; NumPieces := NumPieces s;
     Connections := Connections s; ErrorCode := ErrorCode s; ErrorMessage :=
     ErrorMessage s; FollowedBy := FollowedBy s; Following := Following s;
     BelongsTo := BelongsTo s; Dir := Dir s; Files := Files s; BitTorrent :=
     BitTorrent s; VerifiedLength := VerifiedLength s;
     VerifyIntegrityPending := VerifyIntegrityPending s |}.
Definition set_NumPieces (x : Z) (s : Status) : Status :=
  {| GID := GID s; Status_ := Status_ s; TotalLength := TotalLength s;
     CompletedLength := CompletedLength s; UploadLength := UploadLength s;
     BitField := BitField s; DownloadSpeed := DownloadSpeed s; UploadSpeed
     := UploadSpeed s; InfoHash := InfoHash s; NumSeeders := NumSeeders s;
     Seeder := Seeder s; PieceLength := PieceLength s; NumPieces := x;
     Connections := Connections s; ErrorCode := ErrorCode s; ErrorMessage :=
     ErrorMessage s; FollowedBy := FollowedBy s; Following := Following s;
     BelongsTo := BelongsTo s; Dir := Dir s; Files := Files s; BitTorrent :=
     BitTorrent s; VerifiedLength := VerifiedLength s;
     VerifyIntegrityPending := VerifyIntegrityPending s |}.
Definition set_Connections (x : Z) (s : Status) : Status :=
  {| GID := GID s; Status_ := Status_ s; TotalLength := TotalLength s;
     CompletedLength := CompletedLength s; UploadLength := UploadLength s;
     BitField := BitField s; DownloadSpeed := DownloadSpeed s; UploadSpeed
     := UploadSpeed s; InfoHash := InfoHash s; NumSeeders := NumSeeders s;
     Seeder := Seeder s; PieceLength := PieceLength s; NumPieces :=
     NumPieces s; Connections := x; ErrorCode := ErrorCode s; ErrorMessage
     := ErrorMessage s; FollowedBy := FollowedBy s; Following := Following
     s; BelongsTo := BelongsTo s; Dir := Dir s; Files := Files s; BitTorrent
     := BitTorrent s; VerifiedLength := VerifiedLength s;
     VerifyIntegrityPending := VerifyIntegrityPending s |}.
Definition set_ErrorCode (x : ExitStatus) (s : Status) : Status :=
  {| GID := GID s; Status_ := Status_ s; TotalLength := TotalLength s;
     CompletedLength := CompletedLength s; UploadLength := UploadLength s;
     BitField := BitField s; DownloadSpeed := DownloadSpeed s; UploadSpeed
     := UploadSpeed s; InfoHash := InfoHash s; NumSeeders := NumSeeders s;
     Seeder := Seeder s; PieceLength := PieceLength s; NumPieces :=
     NumPieces s; Connections := Connections s; ErrorCode := x; ErrorMessage
     := ErrorMessage s; FollowedBy := FollowedBy s; Following := Following
     s; BelongsTo := BelongsTo s; Dir := Dir s; Files := Files s; BitTorrent
     := BitTorrent s; VerifiedLength := VerifiedLength s;
     VerifyIntegrityPending := VerifyIntegrityPending s |}.
Definition set_ErrorMessage (x : string) (s : Status) : Status :=
  {| GID := GID s; Status_ := Status_ s; TotalLength := TotalLength s;
     CompletedLength := CompletedLength s; UploadLength := UploadLength s;
     BitField := BitField s; DownloadSpeed := DownloadSpeed s; UploadSpeed
     := UploadSpeed s; InfoHash := InfoHash s; NumSeeders := NumSeeders s;
     Seeder := Seeder s; PieceLength := PieceLength s; NumPieces :=
     NumPieces s; Connections := Connections s; ErrorCode := ErrorCode s;
     ErrorMessage := x; FollowedBy := FollowedBy s; Following := Following
     s; BelongsTo := BelongsTo s; Dir := Dir s; Files := Files s; BitTorrent
     := BitTorrent s; VerifiedLength := VerifiedLength s;
     VerifyIntegrityPending := VerifyIntegrityPending s |}.
Definition set_FollowedBy (x : json.slice string) (s : Status) : Status :=
  {| GID := GID s; Status_ := Status_ s; TotalLength := TotalLength s;
     CompletedLength := CompletedLength s; UploadLength := UploadLength s;
     BitField := BitField s; DownloadSpeed := DownloadSpeed s; UploadSpeed
     := UploadSpeed s; InfoHash := InfoHash s; NumSeeders := NumSeeders s;
     Seeder := Seeder s; PieceLength := PieceLength s; NumPieces :=
     NumPieces s; Connections := Connections s; ErrorCode := ErrorCode s;
     ErrorMessage := ErrorMessage s; FollowedBy := x; Following := Following
     s; BelongsTo := BelongsTo s; Dir := Dir s; Files := Files s; BitTorrent
     := BitTorrent s; VerifiedLength := VerifiedLength s;
     VerifyIntegrityPending := VerifyIntegrityPending s |}.
Definition set_Following (x : string) (s : Status) : Status :=
  {| GID := GID s; Status_ := Status_ s; TotalLength := TotalLength s;
     CompletedLength := CompletedLength s; UploadLength := UploadLength s;
     BitField := BitField s; DownloadSpeed := DownloadSpeed s; UploadSpeed
     := UploadSpeed s; InfoHash := InfoHash s; NumSeeders := NumSeeders s;
     Seeder := Seeder s; PieceLength := PieceLength s; NumPieces :=
     NumPieces s; Connections := Connections s; ErrorCode := ErrorCode s;
     ErrorMessage := ErrorMessage s; FollowedBy := FollowedBy s; Following
     := x; BelongsTo := BelongsTo s; Dir := Dir s; Files := Files s;
     BitTorrent := BitTorrent s; VerifiedLength := VerifiedLength s;
     VerifyIntegrityPending := VerifyIntegrityPending s |}.
Definition set_BelongsTo (x : string) (s : Status) : Status :=
  {| GID := GID s; Status_ := Status_ s; TotalLength := TotalLength s;
     CompletedLength := CompletedLength s; UploadLength := UploadLength s;
     BitField := BitField s; DownloadSpeed := DownloadSpeed s; UploadSpeed
     := UploadSpeed s; InfoHash := InfoHash s; NumSeeders := NumSeeders s;
     Seeder := Seeder s; PieceLength := PieceLength s; NumPieces :=
     NumPieces s; Connections := Connections s; ErrorCode := ErrorCode s;
     ErrorMessage := ErrorMessage s; FollowedBy := FollowedBy s; Following
     := Following s; BelongsTo := x; Dir := Dir s; Files := Files s;
     BitTorrent := BitTorrent s; VerifiedLength := VerifiedLength s;
     VerifyIntegrityPending := VerifyIntegrityPending s |}.
Definition set_Dir (x : string) (s : Status) : Status :=
  {| GID := GID s; Status_ := Status_ s; TotalLength := TotalLength s;
     CompletedLength := CompletedLength s; UploadLength := UploadLength s;
     BitField := BitField s; DownloadSpeed := DownloadSpeed s; UploadSpeed
     := UploadSpeed s; InfoHash := InfoHash s; NumSeeders := NumSeeders s;
     Seeder := Seeder s; PieceLength := PieceLength s; NumPieces :=
     NumPieces s; Connections := Connections s; ErrorCode := ErrorCode s;
     ErrorMessage := ErrorMessage s; FollowedBy := FollowedBy s; Following
     := Following s; BelongsTo := BelongsTo s; Dir := x; Files := Files s;
     BitTorrent := BitTorrent s; VerifiedLength := VerifiedLength s;
     VerifyIntegrityPending := VerifyIntegrityPending s |}.
Definition set_Files (x : json.slice File) (s : Status) : Status :=
  {| GID := GID s; Status_ := Status_ s; TotalLength := TotalLength s;
     CompletedLength := CompletedLength s; UploadLength := UploadLength s;
     BitField := BitField s; DownloadSpeed := DownloadSpeed s; UploadSpeed
     := UploadSpeed s; InfoHash := InfoHash s; NumSeeders := NumSeeders s;
     Seeder := Seeder s; PieceLength := PieceLength s; NumPieces :=
     NumPieces s; Connections := Connections s; ErrorCode := ErrorCode s;
     ErrorMessage := ErrorMessage s; FollowedBy := FollowedBy s; Following
     := Following s; BelongsTo := BelongsTo s; Dir := Dir s; Files := x;
     BitTorrent := BitTorrent s; VerifiedLength := VerifiedLength s;
     VerifyIntegrityPending := VerifyIntegrityPending s |}.
Definition set_BitTorrent (x : BitTorrentStatus) (s : Status) : Status :=
  {| GID := GID s; Status_ := Status_ s; TotalLength := TotalLength s;
     CompletedLength := CompletedLength s; UploadLength := UploadLength s;
     BitField := BitField s; DownloadSpeed := DownloadSpeed s; UploadSpeed
     := UploadSpeed s; InfoHash := InfoHash s; NumSeeders := NumSeeders s;
     Seeder := Seeder s; PieceLength := PieceLength s; NumPieces :=
     NumPieces s; Connections := Connections s; ErrorCode := ErrorCode s;
     ErrorMessage := ErrorMessage s; FollowedBy := FollowedBy s; Following
     := Following s; BelongsTo := BelongsTo s; Dir := Dir s; Files := Files
     s; BitTorrent := x; VerifiedLength := VerifiedLength s;
     VerifyIntegrityPending := VerifyIntegrityPending s |}.
Definition set_VerifiedLength (x : Z) (s : Status) : Status :=
  {| GID := GID s; Status_ := Status_ s; TotalLength := TotalLength s;
     CompletedLength := CompletedLength s; UploadLength := UploadLength s;
     BitField := BitField s; DownloadSpeed := DownloadSpeed s; UploadSpeed
     := UploadSpeed s; InfoHash := InfoHash s; NumSeeders := NumSeeders s;
     Seeder := Seeder s; PieceLength := PieceLength s; NumPieces :=
     NumPieces s; Connections := Connections s; ErrorCode := ErrorCode s;
     ErrorMessage := ErrorMessage s; FollowedBy := FollowedBy s; Following
     := Following s; BelongsTo := BelongsTo s; Dir := Dir s; Files := Files
     s; BitTorrent := BitTorrent s; VerifiedLength := x;
     VerifyIntegrityPending := VerifyIntegrityPending s |}.
Definition set_VerifyIntegrityPending (x : bool) (s : Status) : Status :=
  {| GID := GID s; Status_ := Status_ s; TotalLength := TotalLength s;
     CompletedLength := CompletedLength s; UploadLength := UploadLength s;
     BitField := BitField s; DownloadSpeed := DownloadSpeed s; UploadSpeed
     := UploadSpeed s; InfoHash := InfoHash s; NumSeeders := NumSeeders s;
     Seeder := Seeder s; PieceLength := PieceLength s; NumPieces :=
     NumPieces s; Connections := Connections s; ErrorCode := ErrorCode s;
     ErrorMessage := ErrorMessage s; FollowedBy := FollowedBy s; Following
     := Following s; BelongsTo := BelongsTo s; Dir := Dir s; Files := Files
     s; BitTorrent := BitTorrent s; VerifiedLength := VerifiedLength s;
     VerifyIntegrityPending := x |}.

(** *** The fields as encoding/json sees them

    No tag gives a name, so each field goes by its Go name. *)

Inductive BitTorrentStatusInfo_field := f_Name.

Inductive BitTorrentStatus_field :=
| f_AnnounceList | f_Comment | f_CreationDateUNIX | f_Mode | f_Info.

Inductive Status_field :=
| f_GID | f_Status | f_TotalLength | f_CompletedLength | f_UploadLength
| f_BitField | f_DownloadSpeed | f_UploadSpeed | f_InfoHash | f_NumSeeders
| f_Seeder | f_PieceLength | f_NumPieces | f_Connections | f_ErrorCode
| f_ErrorMessage | f_FollowedBy | f_Following | f_BelongsTo | f_Dir
| f_Files | f_BitTorrent | f_VerifiedLength | f_VerifyIntegrityPending.

Definition BitTorrentStatus_fields : list BitTorrentStatus_field :=
  [f_AnnounceList; f_Comment; f_CreationDateUNIX; f_Mode; f_Info].

Definition Status_fields : list Status_field :=
  [f_GID; f_Status; f_TotalLength; f_CompletedLength; f_UploadLength;
   f_BitField; f_DownloadSpeed; f_UploadSpeed; f_InfoHash; f_NumSeeders;
   f_Seeder; f_PieceLength; f_NumPieces; f_Connections; f_ErrorCode;
   f_ErrorMessage; f_FollowedBy; f_Following; f_BelongsTo; f_Dir;
   f_Files; f_BitTorrent; f_VerifiedLength; f_VerifyIntegrityPending].

Definition BitTorrentStatus_field_name (f : BitTorrentStatus_field) : string :=
  match f with
  | f_AnnounceList => "AnnounceList"
  | f_Comment => "Comment"
  | f_CreationDateUNIX => "CreationDateUNIX"
  | f_Mode => "Mode"
  | f_Info => "Info"
  end.

Definition Status_field_name (f : Status_field) : string :=
  match f with
  | f_GID => "GID"
  | f_Status => "Status"
  | f_TotalLength => "TotalLength"
  | f_CompletedLength => "CompletedLength"
  | f_UploadLength => "UploadLength"
  | f_BitField => "BitField"
  | f_DownloadSpeed => "DownloadSpeed"
  | f_UploadSpeed => "UploadSpeed"
  | f_InfoHash => "InfoHash"
  | f_NumSeeders => "NumSeeders"
  | f_Seeder => "Seeder"
  | f_PieceLength => "PieceLength"
  | f_NumPieces => "NumPieces"
  | f_Connections => "Connections"
  | f_ErrorCode => "ErrorCode"
  | f_ErrorMessage => "ErrorMessage"
  | f_FollowedBy => "FollowedBy"
  | f_Following => "Following"
  | f_BelongsTo => "BelongsTo"
  | f_Dir => "Dir"
  | f_Files => "Files"
  | f_BitTorrent => "BitTorrent"
  | f_VerifiedLength => "VerifiedLength"
  | f_VerifyIntegrityPending => "VerifyIntegrityPending"
  end.

(** *** Decoding *)

Definition uint_field : json.decoder Z :=
  json.field_basic true (json.BUint uintSize) "uint".

Definition bool_field : json.decoder bool :=
  json.field_basic true json.BBool "bool".

Definition BitTorrentStatusInfo_decode : json.decoder BitTorrentStatusInfo :=
  json.value_struct "arigo.BitTorrentStatusInfo"
    (json.find_field (fun _ : BitTorrentStatusInfo_field => "Name") [f_Name])
    (fun _ => json.into Name set_Name (json.value_string "string")).

(** The tag of CreationDateUNIX has the string option, but UNIXTime is of
    kind Struct: typeFields leaves the field unquoted, and d.object decodes
    it with d.value, which finds the Unmarshaler. *)
Definition CreationDateUNIX_quoted : bool := json.quoted true json.KStruct.

Definition BitTorrentStatus_decode_field (f : BitTorrentStatus_field)
  : json.decoder BitTorrentStatus :=
  match f with
  | f_AnnounceList =>
      json.into AnnounceList set_AnnounceList
        (json.value_slice URI_decode URI_zero "[]arigo.URI")
  | f_Comment =>
      json.into Comment set_Comment (json.value_string "string")
  | f_CreationDateUNIX =>
      json.into CreationDateUNIX set_CreationDateUNIX
        (json.value_Unmarshaler UNIXTime_UnmarshalJSON)
  | f_Mode =>
      json.into Mode set_Mode (json.value_string "arigo.TorrentMode")
  | f_Info =>
      json.into Info set_Info BitTorrentStatusInfo_decode
  end.

Definition BitTorrentStatus_decode : json.decoder BitTorrentStatus :=
  json.value_struct "arigo.BitTorrentStatus"
    (json.find_field BitTorrentStatus_field_name BitTorrentStatus_fields)
    BitTorrentStatus_decode_field.

Definition Status_decode_field (f : Status_field) : json.decoder Status :=
  match f with
  | f_GID => json.into GID set_GID (json.value_string "string")
  | f_Status =>
      json.into Status_ set_Status (json.value_string "arigo.DownloadStatus")
  | f_TotalLength => json.into TotalLength set_TotalLength uint_field
  | f_CompletedLength =>
      json.into CompletedLength set_CompletedLength uint_field
  | f_UploadLength => json.into UploadLength set_UploadLength uint_field
  | f_BitField => json.into BitField set_BitField (json.value_string "string")
  | f_DownloadSpeed => json.into DownloadSpeed set_DownloadSpeed uint_field
  | f_UploadSpeed => json.into UploadSpeed set_UploadSpeed uint_field
  | f_InfoHash => json.into InfoHash set_InfoHash (json.value_string "string")
  | f_NumSeeders => json.into NumSeeders set_NumSeeders uint_field
  | f_Seeder => json.into Seeder set_Seeder bool_field
  | f_PieceLength => json.into PieceLength set_PieceLength uint_field
  | f_NumPieces => json.into NumPieces set_NumPieces uint_field
  | f_Connections => json.into Connections set_Connections uint_field
  | f_ErrorCode => json.into ErrorCode set_ErrorCode ErrorCode_decode
  | f_ErrorMessage =>
      json.into ErrorMessage set_ErrorMessage (json.value_string "string")
  | f_FollowedBy =>
      json.into FollowedBy set_FollowedBy
        (json.value_slice (json.value_string "string") "" "[]string")
  | f_Following =>
      json.into Following set_Following (json.value_string "string")
  | f_BelongsTo =>
      json.into BelongsTo set_BelongsTo (json.value_string "string")
  | f_Dir => json.into Dir set_Dir (json.value_string "string")
  | f_Files =>
      json.into Files set_Files
        (json.value_slice File_decode File_zero "[]arigo.File")
  | f_BitTorrent => json.into BitTorrent set_BitTorrent BitTorrentStatus_decode
  | f_VerifiedLength => json.into VerifiedLength set_VerifiedLength uint_field
  | f_VerifyIntegrityPending =>
      json.into VerifyIntegrityPending set_VerifyIntegrityPending bool_field
  end.

Definition Status_lookup : string -> option Status_field :=
  json.find_field Status_field_name Status_fields.

Definition Status_decode : json.decoder Status :=
  json.value_struct "arigo.Status" Status_lookup Status_decode_field.

(** json.Unmarshal(data, &s) *)
Definition json_Unmarshal_Status (data : json.text) (s : Status)
  : Status * option json.error :=
  json.Unmarshal Status_decode data s.

Definition json_Unmarshal_BitTorrentStatus (data : json.text)
    (b : BitTorrentStatus) : BitTorrentStatus * option json.error :=
  json.Unmarshal BitTorrentStatus_decode data b.

(** *** Encoding: json.Marshal writes every field, in declaration order *)

Definition BitTorrentStatusInfo_encode (i : BitTorrentStatusInfo)
  : json.value :=
  json.Object [("Name", json.Str (Name i))].

(** The only step that returns an error is the Marshaler; when it does,
    Marshal returns that error and no text. *)
Definition BitTorrentStatus_encode (b : BitTorrentStatus)
  : json.value * option json.error :=
  let '(creationDate, err) := UNIXTime_MarshalJSON (CreationDateUNIX b) in
  match err with
  | Some e => (json.Null, Some e)
  | None =>
      (json.Object
         [("AnnounceList", json.encode_slice URI_encode (AnnounceList b));
          ("Comment", json.Str (Comment b));
          ("CreationDateUNIX", creationDate);
          ("Mode", json.Str (Mode b));
          ("Info", BitTorrentStatusInfo_encode (Info b))], None)
  end.

Definition uint_encode : Z -> json.value :=
  json.encode_field_basic true (json.BUint uintSize).

Definition bool_encode : bool -> json.value :=
  json.encode_field_basic true json.BBool.

Definition Status_encode (s : Status) : json.value * option json.error :=
  let '(bitTorrent, err) := BitTorrentStatus_encode (BitTorrent s) in
  match err with
  | Some e => (json.Null, Some e)
  | None =>
      (json.Object
         [("GID", json.Str (GID s));
          ("Status", json.Str (Status_ s));
          ("TotalLength", uint_encode (TotalLength s));
          ("CompletedLength", uint_encode (CompletedLength s));
          ("UploadLength", uint_encode (UploadLength s));
          ("BitField", json.Str (BitField s));
          ("DownloadSpeed", uint_encode (DownloadSpeed s));
          ("UploadSpeed", uint_encode (UploadSpeed s));
          ("InfoHash", json.Str (InfoHash s));
          ("NumSeeders", uint_encode (NumSeeders s));
          ("Seeder", bool_encode (Seeder s));
          ("PieceLength", uint_encode (PieceLength s));
          ("NumPieces", uint_encode (NumPieces s));
          ("Connections", uint_encode (Connections s));
          ("ErrorCode", ErrorCode_encode (ErrorCode s));
          ("ErrorMessage", json.Str (ErrorMessage s));
          ("FollowedBy", json.encode_slice json.Str (FollowedBy s));
          ("Following", json.Str (Following s));
          ("BelongsTo", json.Str (BelongsTo s));
          ("Dir", json.Str (Dir s));
          ("Files", json.encode_slice File_encode (Files s));
          ("BitTorrent", bitTorrent);
          ("VerifiedLength", uint_encode (VerifiedLength s));
          ("VerifyIntegrityPending", bool_encode (VerifyIntegrityPending s))],
       None)
  end.

(** json.Marshal(s) *)
Definition json_Marshal_Status (s : Status) : json.value * option json.error :=
  Status_encode s.

Definition json_Marshal_BitTorrentStatus (b : BitTorrentStatus)
  : json.value * option json.error :=
  BitTorrentStatus_encode b.

End Declarations.

(** ** Concrete builds, for the examples

    A 64-bit and a 32-bit platform; the absent types held as the raw JSON
    value they were given, the way json.RawMessage holds it. *)

Definition amd64 : Platform :=
  {| uintSize := 64; uintSize_cases := or_intror eq_refl |}.

Definition i386 : Platform :=
  {| uintSize := 32; uintSize_cases := or_introl eq_refl |}.

Definition raw_decode : json.decoder json.value :=
  fun j _ d => (j, d, None).

Definition raw : Absent :=
  {| ExitStatus := json.value; ExitStatus_zero := json.Null;
     ErrorCode_decode := raw_decode; ErrorCode_encode := fun j => j;
     File := json.value; File_zero := json.Null;
     File_decode := raw_decode; File_encode := fun j => j;
     URI := json.value; URI_zero := json.Null;
     URI_decode := raw_decode; URI_encode := fun j => j |}.

(** Modelled from the spec: the type URI, which status.go uses for the
    elements of AnnounceList and the package declares in another file.
    The spec gives AnnounceList as an "ordered sequence of ordered
    sequences of announce-URI values (tracker tiers)": an element is a
    tier, a sequence of announce URIs, each a string.  ExitStatus and
    File are held as raw JSON. *)
Definition tier : Type := json.slice string.

Definition tier_decode : json.decoder tier :=
  json.value_slice (json.value_string "string") "" "arigo.URI".

Definition tier_encode : tier -> json.value :=
  json.encode_slice json.Str.

Definition tiers : Absent :=
  {| ExitStatus := json.value; ExitStatus_zero := json.Null;
     ErrorCode_decode := raw_decode; ErrorCode_encode := fun j => j;
     File := json.value; File_zero := json.Null;
     File_decode := raw_decode; File_encode := fun j => j;
     URI := tier; URI_zero := None;
     URI_decode := tier_decode; URI_encode := tier_encode |}.

(** ** Vocabulary of the properties *)

(** The number a string of decimal digits denotes, without bound. *)
Fixpoint digits_value (s : string) (n : Z) : Z :=
  match s with
  | EmptyString => n
  | String c rest => digits_value rest (n * 10 + (byte_of c - 48))
  end.

Definition decimal_value (s : string) : Z := digits_value s 0.

(** The decimal text of an integer below 10^20 in absolute value. *)
Definition decimal (n : Z) : string :=
  if n <? 0 then String "-"%char (strconv.FormatUint (- n))
  else strconv.FormatUint n.

(** A number literal with a fraction or an exponent: it has a point,
    an e or an E. *)
Definition fraction_or_exponent_byte (c : ascii) : bool :=
  Ascii.eqb c "."%char || Ascii.eqb c "e"%char || Ascii.eqb c "E"%char.

Definition has_fraction_or_exponent (lit : string) : bool :=
  existsb fraction_or_exponent_byte (list_ascii_of_string lit).

(** A wire value that is a string, a boolean, an array or an object. *)
Definition not_a_number (data : json.value) : bool :=
  match data with
  | json.Null | json.Number _ => false
  | _ => true
  end.

(** UnmarshalJSON refuses [data] as a type mismatch and leaves the
    receiver [t] as it was. *)
Definition UNIXTime_refuses (t : UNIXTime) (data : json.value) : Prop :=
  exists e,
    UNIXTime_UnmarshalJSON t data = (t, Some e)
    /\ json.is_type_mismatch e = true.

(** A decimal-digit string: one digit or more, nothing else. *)
Fixpoint all_digits (s : string) : bool :=
  match s with
  | EmptyString => true
  | String c rest => strconv.is_digit c && all_digits rest
  end.

Definition is_decimal (s : string) : bool :=
  match s with
  | EmptyString => false
  | _ => all_digits s
  end.

Section Access.

Context {platform : Platform} {absent : Absent}.

(** The fields of Status declared [uint `json:",string"`], each with
    how it is read and assigned. *)
Definition uint_access (f : Status_field)
  : option ((Status -> Z) * (Z -> Status -> Status)) :=
  match f with
  | f_TotalLength => Some (TotalLength, set_TotalLength)
  | f_CompletedLength => Some (CompletedLength, set_CompletedLength)
  | f_UploadLength => Some (UploadLength, set_UploadLength)
  | f_DownloadSpeed => Some (DownloadSpeed, set_DownloadSpeed)
  | f_UploadSpeed => Some (UploadSpeed, set_UploadSpeed)
  | f_NumSeeders => Some (NumSeeders, set_NumSeeders)
  | f_PieceLength => Some (PieceLength, set_PieceLength)
  | f_NumPieces => Some (NumPieces, set_NumPieces)
  | f_Connections => Some (Connections, set_Connections)
  | f_VerifiedLength => Some (VerifiedLength, set_VerifiedLength)
  | _ => None
  end.

Definition Status_field_eq_dec (f g : Status_field) : {f = g} + {f <> g}.
Proof. decide equality. Defined.

(** The member [m] of a message is decoded into the field [f]. *)
Definition selects (f : Status_field) (m : string * json.value) : bool :=
  match Status_lookup (fst m) with
  | Some g => if Status_field_eq_dec g f then true else false
  | None => false
  end.


(** Every field of kind uint holds a value of the platform's uint. *)
Definition uints_in_range (s : Status) : Prop :=
  forall f get set,
    uint_access f = Some (get, set) -> 0 <= get s < 2 ^ uintSize.

(** The member [m] of a message has a field of Status to go to. *)
Definition known (m : string * json.value) : bool :=
  match Status_lookup (fst m) with
  | Some _ => true
  | None => false
  end.

End Access.

(** ASCII case folding of member names: a to z become A to Z. *)
Definition fold_byte (c : ascii) : ascii :=
  if (97 <=? byte_of c) && (byte_of c <=? 122)
  then ascii_of_N (Z.to_N (byte_of c - 32))
  else c.

Fixpoint fold_case (s : string) : string :=
  match s with
  | EmptyString => EmptyString
  | String c rest => String (fold_byte c) (fold_case rest)
  end.

Fixpoint is_ascii (s : string) : bool :=
  match s with
  | EmptyString => true
  | String c rest => (byte_of c <? 128) && is_ascii rest
  end.

(** The 256 bytes, and the comparison of one byte of a field name with
    one byte of a member name as simpleLetterEqualFold makes it, set
    against equality after folding. *)
Definition all_bytes : list ascii := map ascii_of_nat (seq 0 256).

Definition mask_agrees_with_fold (sb tb : ascii) : bool :=
  implb (json.is_letter (byte_of sb))
    (Bool.eqb
       (Z.land (byte_of sb) json.caseMask =? Z.land (byte_of tb) json.caseMask)
       (Ascii.eqb (fold_byte sb) (fold_byte tb))).

Fixpoint letters_only (s : string) : bool :=
  match s with
  | EmptyString => true
  | String c rest => json.is_letter (byte_of c) && letters_only rest
  end.

(** * Properties *)

(** ** Fixed-width arithmetic *)

Lemma int64_range (x : Z) : is_int64 (int64 x).
Proof.
  unfold is_int64, int64, minInt64, maxInt64.
  pose proof (Z.mod_pos_bound (x + 2 ^ 63) (2 ^ 64) ltac:(lia)). lia.
Qed.

Lemma int64_small (x : Z) : is_int64 x -> int64 x = x.
Proof.
  unfold is_int64, int64, minInt64, maxInt64. intros H.
  rewrite Z.mod_small; lia.
Qed.

Lemma int64_add_l (a b : Z) : int64 (int64 a + b) = int64 (a + b).
Proof.
  unfold int64.
  replace ((a + 2 ^ 63) mod 2 ^ 64 - 2 ^ 63 + b + 2 ^ 63)
    with ((a + 2 ^ 63) mod 2 ^ 64 + b) by ring.
  rewrite Z.add_mod_idemp_l by lia.
  do 2 f_equal. ring.
Qed.

Lemma int64_opp (a : Z) : int64 (- int64 a) = int64 (- a).
Proof.
  unfold int64.
  pose proof (Z.div_mod (a + 2 ^ 63) (2 ^ 64) ltac:(lia)) as H.
  replace (- ((a + 2 ^ 63) mod 2 ^ 64 - 2 ^ 63) + 2 ^ 63)
    with (- a + 2 ^ 63 + ((a + 2 ^ 63) / 2 ^ 64) * 2 ^ 64) by lia.
  rewrite Z.mod_add by lia. reflexivity.
Qed.

Lemma uint64_small (x : Z) : 0 <= x <= maxUint64 -> uint64 x = x.
Proof. unfold uint64, maxUint64. intros H. apply Z.mod_small. lia. Qed.

(** ** strconv: what is written is read back *)

Lemma digit_char_byte (d : Z) :
  0 <= d < 10 -> byte_of (strconv.digit_char d) = 48 + d.
Proof.
  intros H.
  assert (E : d = 0 \/ d = 1 \/ d = 2 \/ d = 3 \/ d = 4 \/ d = 5 \/ d = 6
              \/ d = 7 \/ d = 8 \/ d = 9) by lia.
  repeat (destruct E as [-> | E]; [reflexivity |]). subst d. reflexivity.
Qed.

Lemma digit_char_is_digit (d : Z) :
  0 <= d < 10 -> strconv.is_digit (strconv.digit_char d) = true.
Proof.
  intros H. unfold strconv.is_digit. rewrite digit_char_byte by exact H.
  apply andb_true_intro. split; apply Z.leb_le; lia.
Qed.

Lemma is_digit_not_sign (c : ascii) :
  strconv.is_digit c = true ->
  Ascii.eqb c "+"%char = false /\ Ascii.eqb c "-"%char = false.
Proof.
  destruct c as [[] [] [] [] [] [] [] []]; vm_compute; intros H;
    (discriminate H || (split; reflexivity)).
Qed.

(** One round of the ParseUint loop on a digit that fits. *)
Lemma ParseUint_loop_step (maxVal : Z) (c : ascii) (rest : string) (n d : Z) :
  0 <= d < 10 -> byte_of c = 48 + d -> 0 <= n ->
  n * 10 + d <= maxVal -> maxVal <= maxUint64 ->
  strconv.ParseUint_loop maxVal (String c rest) n
  = strconv.ParseUint_loop maxVal rest (n * 10 + d).
Proof.
  intros Hd Hc Hn Hfit Hmax. simpl.
  assert (Hdig : strconv.is_digit c = true).
  { unfold strconv.is_digit. rewrite Hc.
    apply andb_true_intro. split; apply Z.leb_le; lia. }
  rewrite Hdig, Hc.
  replace (48 + d - 48) with d by ring.
  assert (Hcut : (strconv.cutoff <=? n) = false).
  { apply Z.leb_gt. unfold strconv.cutoff.
    unfold maxUint64 in *. change (2 ^ 64 - 1) with 18446744073709551615 in *.
    change (18446744073709551615 / 10 + 1) with 1844674407370955162. lia. }
  rewrite Hcut.
  rewrite (uint64_small (n * 10)) by lia.
  rewrite (uint64_small (n * 10 + d)) by lia.
  assert (H1 : (n * 10 + d <? n * 10) = false) by (apply Z.ltb_ge; lia).
  assert (H2 : (maxVal <? n * 10 + d) = false) by (apply Z.ltb_ge; lia).
  rewrite H1, H2. reflexivity.
Qed.

(** Reading the digits that formatBits put in front of [a] takes the loop
    from 0 to [u]. *)
Lemma ParseUint_loop_formatBits (maxVal : Z) (fuel : nat) :
  maxVal <= maxUint64 ->
  forall (u : Z) (a : string),
    0 <= u < 10 ^ Z.of_nat fuel -> u <= maxVal ->
    strconv.ParseUint_loop maxVal (strconv.formatBits fuel u a) 0
    = strconv.ParseUint_loop maxVal a u.
Proof.
  intros Hmax. induction fuel as [| fuel IH]; intros u a Hu Hfit.
  - simpl in Hu. assert (u = 0) by lia. subst u. reflexivity.
  - cbn [strconv.formatBits]. destruct (10 <=? u) eqn:E.
    + apply Z.leb_le in E.
      assert (Hq : 0 <= u / 10 < 10 ^ Z.of_nat fuel).
      { split; [apply Z.div_pos; lia |].
        apply Z.div_lt_upper_bound; [lia |].
        replace (10 * 10 ^ Z.of_nat fuel) with (10 ^ Z.of_nat (S fuel)).
        - lia.
        - rewrite Nat2Z.inj_succ, Z.pow_succ_r by lia. reflexivity. }
      pose proof (Z.mod_pos_bound u 10 ltac:(lia)) as Hm.
      pose proof (Z.div_mod u 10 ltac:(lia)) as Hdm.
      rewrite IH by (try exact Hq; lia).
      rewrite (ParseUint_loop_step maxVal _ a (u / 10) (u mod 10));
        try lia.
      * f_equal. lia.
      * apply digit_char_byte. lia.
    + apply Z.leb_gt in E.
      rewrite (ParseUint_loop_step maxVal _ a 0 u); try lia.
      * f_equal.
      * apply digit_char_byte. lia.
Qed.

(** What formatBits writes starts with a decimal digit. *)
Lemma formatBits_head (fuel : nat) :
  forall (u : Z) (a : string), 0 <= u ->
    exists c r, strconv.formatBits (S fuel) u a = String c r
                /\ strconv.is_digit c = true.
Proof.
  induction fuel as [| fuel IH]; intros u a Hu.
  - cbn [strconv.formatBits].
    pose proof (Z.mod_pos_bound u 10 ltac:(lia)) as Hm.
    destruct (10 <=? u) eqn:E; eexists; eexists; (split; [reflexivity |]).
    + apply digit_char_is_digit. lia.
    + apply Z.leb_gt in E. apply digit_char_is_digit. lia.
  - change (strconv.formatBits (S (S fuel)) u a)
      with (if 10 <=? u
            then strconv.formatBits (S fuel) (u / 10)
                   (String (strconv.digit_char (u mod 10)) a)
            else String (strconv.digit_char u) a).
    destruct (10 <=? u) eqn:E.
    + apply IH. apply Z.div_pos; lia.
    + apply Z.leb_gt in E. eexists; eexists; (split; [reflexivity |]).
      apply digit_char_is_digit. lia.
Qed.

Lemma ParseUint_FormatUint (u : Z) :
  0 <= u <= maxUint64 ->
  strconv.ParseUint (strconv.FormatUint u) 64 = (u, None).
Proof.
  intros Hu. unfold strconv.FormatUint.
  destruct (formatBits_head 19 u "" ltac:(lia)) as (c & r & E & _).
  unfold strconv.ParseUint. rewrite E, <- E.
  change (2 ^ 64 - 1) with maxUint64.
  rewrite ParseUint_loop_formatBits; try reflexivity; try lia.
  unfold maxUint64 in Hu. change (Z.of_nat 20) with 20. lia.
Qed.

Lemma ParseInt_FormatInt (x : Z) :
  is_int64 x -> strconv.ParseInt (strconv.FormatInt x) 64 = (x, None).
Proof.
  unfold is_int64, minInt64, maxInt64. intros Hx.
  unfold strconv.FormatInt. destruct (x <? 0) eqn:Eneg.
  - apply Z.ltb_lt in Eneg.
    assert (Hu : 0 <= - x <= maxUint64) by (unfold maxUint64; lia).
    rewrite (uint64_small _ Hu).
    cbn [strconv.ParseInt]. change (Ascii.eqb "-" "+") with false.
    change (Ascii.eqb "-" "-") with true. cbv iota.
    rewrite (ParseUint_FormatUint _ Hu). cbv iota beta.
    change (negb true) with false. cbn [andb].
    change (2 ^ (64 - 1)) with (2 ^ 63).
    assert (Hc : (2 ^ 63 <? - x) = false) by (apply Z.ltb_ge; lia).
    rewrite Hc. f_equal.
    rewrite int64_opp, Z.opp_involutive. apply int64_small.
    unfold is_int64, minInt64, maxInt64. lia.
  - apply Z.ltb_ge in Eneg.
    assert (Hu : 0 <= x <= maxUint64) by (unfold maxUint64; lia).
    rewrite (uint64_small _ Hu).
    destruct (formatBits_head 19 x "" ltac:(lia)) as (c & r & E & Hd).
    pose proof (ParseUint_FormatUint _ Hu) as HP.
    unfold strconv.FormatUint in *. rewrite E in *.
    destruct (is_digit_not_sign c Hd) as [Hplus Hminus].
    cbn [strconv.ParseInt]. rewrite Hplus, Hminus. cbv iota.
    rewrite HP. cbv iota beta. cbn [negb andb].
    change (2 ^ (64 - 1)) with (2 ^ 63).
    assert (Hc : (2 ^ 63 <=? x) = false) by (apply Z.leb_gt; lia).
    rewrite Hc. f_equal. apply int64_small.
    unfold is_int64, minInt64, maxInt64. lia.
Qed.

Lemma ParseInt_range (s : string) (n : Z) :
  strconv.ParseInt s 64 = (n, None) -> is_int64 n.
Proof.
  unfold strconv.ParseInt. destruct s as [| c rest]; [discriminate |].
  destruct (if Ascii.eqb c "+"%char then (false, rest)
            else if Ascii.eqb c "-"%char then (true, rest)
            else (false, String c rest)) as [neg s'].
  destruct (strconv.ParseUint s' 64) as [un err].
  assert (G : (let cutoff := 2 ^ (64 - 1) in
               if negb neg && (cutoff <=? un) then (cutoff - 1, Some strconv.ErrRange)
               else if neg && (cutoff <? un) then (- cutoff, Some strconv.ErrRange)
               else (if neg then int64 (- int64 un) else int64 un, None))
              = (n, None) -> is_int64 n).
  { cbv zeta.
    destruct (negb neg && (2 ^ (64 - 1) <=? un)); [discriminate |].
    destruct (neg && (2 ^ (64 - 1) <? un)); [discriminate |].
    intros H. injection H as <-. destruct neg; apply int64_range. }
  destruct err as [[|] |]; [discriminate | exact G | exact G].
Qed.

(** ** encoding/json on an int64 target *)

Lemma OverflowInt_64 (n : Z) : is_int64 n -> json.OverflowInt 64 n = false.
Proof.
  intros H. unfold json.OverflowInt.
  change (64 - 64) with 0. rewrite Z.shiftl_0_r, Z.shiftr_0_r.
  rewrite (int64_small _ H), Z.eqb_refl. reflexivity.
Qed.

Lemma json_Unmarshal_int64_number (lit : string) (n ts : Z) :
  strconv.ParseInt lit 64 = (n, None) ->
  json_Unmarshal_int64 (json.Number lit) ts = (n, None).
Proof.
  intros H. unfold json_Unmarshal_int64, json.Unmarshal, json.value_basic.
  cbn [json.literalStore]. rewrite H.
  rewrite (OverflowInt_64 _ (ParseInt_range _ _ H)). reflexivity.
Qed.

(** Everything but null and a number literal that ParseInt accepts leaves
    ts alone and is reported as a type mismatch. *)
Lemma json_Unmarshal_int64_mismatch (data : json.value) (ts : Z) :
  data <> json.Null ->
  (forall lit, data = json.Number lit ->
     snd (strconv.ParseInt lit 64) <> None) ->
  exists Value,
    json_Unmarshal_int64 data ts
    = (ts, Some (json.UnmarshalTypeError Value "int64")).
Proof.
  intros Hnull Hnum.
  unfold json_Unmarshal_int64, json.Unmarshal, json.value_basic.
  destruct data as [| b | lit | s | elems | members];
    [congruence | | | | | ]; cbn [json.literalStore];
    try (eexists; reflexivity).
  specialize (Hnum lit eq_refl).
  destruct (strconv.ParseInt lit 64) as [n [e |]];
    [| exfalso; apply Hnum; reflexivity].
  eexists; reflexivity.
Qed.

(** ** time: seconds survive the trip through Unix *)

Lemma Time_Unix_Unix (n : Z) :
  is_int64 n -> time.Time_Unix (time.Unix n 0) = n.
Proof.
  intros H. unfold time.Unix. cbn [Z.ltb Z.leb Z.compare orb].
  unfold time.Time_Unix, time.sec, time.unixTime. cbn [time.wall time.ext].
  change (Z.land (uint64 0) time.hasMonotonic =? 0) with true. cbv iota.
  rewrite int64_add_l.
  replace (n + time.unixToInternal + time.internalToUnix) with n
    by (unfold time.internalToUnix; ring).
  apply int64_small, H.
Qed.

Lemma nsec_Unix (n : Z) : time.nsec (time.Unix n 0) = 0.
Proof. reflexivity. Qed.

Lemma UNIXTime_UnmarshalJSON_number (t : UNIXTime) (lit : string) (n : Z) :
  strconv.ParseInt lit 64 = (n, None) ->
  UNIXTime_UnmarshalJSON t (json.Number lit)
  = ({| Time := time.Unix n 0 |}, None).
Proof.
  intros H. unfold UNIXTime_UnmarshalJSON.
  rewrite (json_Unmarshal_int64_number _ _ _ H). reflexivity.
Qed.

(** ** UNIXTime *)

(** C1. Decoding what MarshalJSON wrote gives an instant with the same
    Unix second count, whatever the receiver held before; and for every
    second count x that fits an int64, encoding what was decoded from the
    integer x gives x back. *)
Theorem UNIXTime_round_trip :
  (forall t t0 : UNIXTime,
     snd (UNIXTime_MarshalJSON t) = None /\
     exists t',
       UNIXTime_UnmarshalJSON t0 (fst (UNIXTime_MarshalJSON t)) = (t', None)
       /\ time.Time_Unix (Time t') = time.Time_Unix (Time t))
  /\
  (forall x : Z, is_int64 x ->
   forall t0 : UNIXTime,
     exists t',
       UNIXTime_UnmarshalJSON t0 (json.Number (strconv.FormatInt x))
       = (t', None)
       /\ UNIXTime_MarshalJSON t' = (json.Number (strconv.FormatInt x), None)).
Proof.
  split.
  - intros t t0. split; [reflexivity |].
    pose proof (int64_range (time.sec (Time t) + time.internalToUnix)) as R.
    fold (time.Time_Unix (Time t)) in R.
    exists {| Time := time.Unix (time.Time_Unix (Time t)) 0 |}. split.
    + cbn [UNIXTime_MarshalJSON json_Marshal_int64 fst].
      apply UNIXTime_UnmarshalJSON_number, ParseInt_FormatInt, R.
    + cbn [Time]. apply Time_Unix_Unix, R.
  - intros x Hx t0. exists {| Time := time.Unix x 0 |}. split.
    + apply UNIXTime_UnmarshalJSON_number, ParseInt_FormatInt, Hx.
    + unfold UNIXTime_MarshalJSON, json_Marshal_int64. cbn [Time].
      rewrite (Time_Unix_Unix _ Hx). reflexivity.
Qed.

Lemma UNIXTime_round_trip_witness :
  is_int64 1600000000 /\
  exists t',
    UNIXTime_UnmarshalJSON {| Time := time.zero |}
      (json.Number (strconv.FormatInt 1600000000)) = (t', None)
    /\ UNIXTime_MarshalJSON t'
       = (json.Number (strconv.FormatInt 1600000000), None).
Proof.
  assert (H : is_int64 1600000000)
    by (unfold is_int64, minInt64, maxInt64; lia).
  split; [exact H |].
  exact (proj2 UNIXTime_round_trip 1600000000 H {| Time := time.zero |}).
Defined.

(** C7 as it was stated fails at null: null is not an integer, and the
    decode returns no error and sets the receiver to the epoch. *)
Lemma UNIXTime_decode_null :
  UNIXTime_UnmarshalJSON {| Time := time.zero |} json.Null
  = ({| Time := time.Unix 0 0 |}, None)
  /\ ~ (exists e,
          snd (UNIXTime_UnmarshalJSON {| Time := time.zero |} json.Null)
          = Some e).
Proof.
  split; [reflexivity |]. intros [e H]. discriminate H.
Qed.

(** C9. When UnmarshalJSON returns an error, the receiver is what it was
    before the call. *)
Theorem UNIXTime_UnmarshalJSON_error_keeps_receiver
    (t t' : UNIXTime) (data : json.text) (e : json.error) :
  UNIXTime_UnmarshalJSON t data = (t', Some e) -> t' = t.
Proof.
  unfold UNIXTime_UnmarshalJSON.
  destruct (json_Unmarshal_int64 data 0) as [ts [err |]]; intros H.
  - injection H as <- _. reflexivity.
  - discriminate H.
Qed.

Lemma UNIXTime_UnmarshalJSON_error_keeps_receiver_witness :
  let t := {| Time := time.Unix 7 0 |} in
  UNIXTime_UnmarshalJSON t (json.Str "x")
  = (t, Some (json.UnmarshalTypeError "string" "int64"))
  /\ t = t.
Proof.
  intros t.
  assert (H : UNIXTime_UnmarshalJSON t (json.Str "x")
              = (t, Some (json.UnmarshalTypeError "string" "int64")))
    by reflexivity.
  split; [exact H |].
  exact (UNIXTime_UnmarshalJSON_error_keeps_receiver _ _ _ _ H).
Defined.

(** ** Decoding one member, and the fields after an assignment *)

Section Properties.

Context {platform : Platform} {absent : Absent}.

Lemma json_Unmarshal_Status_member (key : string) (f : Status_field)
    (j : json.value) (s0 : Status) :
  Status_lookup key = Some f ->
  json_Unmarshal_Status (json.Object [(key, j)]) s0
  = let '(s, d, err) := Status_decode_field f j s0 json.init in
    match err with
    | Some e => (s, Some e)
    | None => (s, json.savedError d)
    end.
Proof.
  intros H. unfold json_Unmarshal_Status, json.Unmarshal, Status_decode.
  cbn [json.value_struct json.object_loop]. rewrite H.
  destruct (Status_decode_field f j s0 json.init) as [[s d] [e |]];
    reflexivity.
Qed.

Lemma json_Unmarshal_BitTorrentStatus_member (key : string)
    (f : BitTorrentStatus_field) (j : json.value) (b0 : BitTorrentStatus) :
  json.find_field BitTorrentStatus_field_name BitTorrentStatus_fields key
  = Some f ->
  json_Unmarshal_BitTorrentStatus (json.Object [(key, j)]) b0
  = let '(b, d, err) := BitTorrentStatus_decode_field f j b0 json.init in
    match err with
    | Some e => (b, Some e)
    | None => (b, json.savedError d)
    end.
Proof.
  intros H.
  unfold json_Unmarshal_BitTorrentStatus, json.Unmarshal,
    BitTorrentStatus_decode.
  cbn [json.value_struct json.object_loop]. rewrite H.
  destruct (BitTorrentStatus_decode_field f j b0 json.init) as [[b d] [e |]];
    reflexivity.
Qed.

(** ** Enumerations *)

(** C4, as amended.  DownloadStatus and TorrentMode are string types:
    decoding stores whatever string the wire carries.  "active" gives
    StatusActive; a string outside the variant set is stored unchanged,
    with no error and no sentinel. *)
Theorem enumeration_decode_keeps_string (s : string) :
  (forall s0 : Status,
     json_Unmarshal_Status (json.Object [("status", json.Str s)]) s0
     = (set_Status s s0, None))
  /\
  (forall b0 : BitTorrentStatus,
     json_Unmarshal_BitTorrentStatus (json.Object [("mode", json.Str s)]) b0
     = (set_Mode s b0, None))
  /\
  Status_
    (fst (json_Unmarshal_Status
            (json.Object [("status", json.Str "active")]) Status_zero))
  = StatusActive.
Proof.
  split; [| split].
  - intros s0.
    rewrite (json_Unmarshal_Status_member "status" f_Status) by reflexivity.
    reflexivity.
  - intros b0.
    rewrite (json_Unmarshal_BitTorrentStatus_member "mode" f_Mode)
      by reflexivity.
    reflexivity.
  - rewrite (json_Unmarshal_Status_member "status" f_Status) by reflexivity.
    reflexivity.
Qed.

End Properties.

(** C4 as it was stated fails: "bogus" is outside the variant set, and
    decoding it neither fails nor gives a sentinel; the field then holds
    a value that is none of the variants. *)
Lemma enumeration_decode_bogus :
  let r := @json_Unmarshal_Status amd64 raw
             (json.Object [("status", json.Str "bogus")]) Status_zero in
  snd r = None
  /\ Status_ (fst r) = "bogus"
  /\ ~ In (Status_ (fst r)) DownloadStatus_variants.
Proof.
  split; [reflexivity | split; [reflexivity |]].
  cbv. intros H.
  repeat (destruct H as [H | H]; [discriminate H |]). exact H.
Qed.

(** ** String-encoded numbers *)

Lemma ParseUint_loop_nondigit (maxVal : Z) (s : string) :
  all_digits s = false ->
  forall n, exists v e, strconv.ParseUint_loop maxVal s n = (v, Some e).
Proof.
  induction s as [| c rest IH]; intros H n; [discriminate H |].
  cbn [all_digits] in H. cbn [strconv.ParseUint_loop].
  destruct (strconv.is_digit c); [| eauto].
  cbn [andb] in H.
  destruct (strconv.cutoff <=? n); [eauto |].
  cbv zeta.
  destruct ((uint64 (uint64 (n * 10) + (byte_of c - 48)) <? uint64 (n * 10))
            || (maxVal <? uint64 (uint64 (n * 10) + (byte_of c - 48))));
    [eauto | apply IH, H].
Qed.

Lemma ParseUint_nondecimal (s : string) :
  is_decimal s = false ->
  exists v e, strconv.ParseUint s 64 = (v, Some e).
Proof.
  destruct s as [| c rest]; intros H; [cbn; eauto |].
  unfold strconv.ParseUint. apply ParseUint_loop_nondigit, H.
Qed.

Lemma is_digit_head (c : ascii) :
  strconv.is_digit c = true ->
  Ascii.eqb c "n"%char = false /\ Ascii.eqb c "t"%char = false
  /\ Ascii.eqb c "f"%char = false /\ Ascii.eqb c dquote = false.
Proof.
  destruct c as [[] [] [] [] [] [] [] []]; vm_compute; intros H;
    (discriminate H || (repeat split; reflexivity)).
Qed.

Section Numbers.

Context {platform : Platform} {absent : Absent}.

Lemma OverflowUint_fits (n : Z) :
  0 <= n < 2 ^ uintSize -> json.OverflowUint uintSize n = false.
Proof.
  unfold json.OverflowUint. intros H.
  destruct uintSize_cases as [E | E]; rewrite E in *.
  - change (64 - 32) with 32.
    rewrite Z.shiftl_mul_pow2 by lia.
    rewrite uint64_small by (unfold maxUint64; lia).
    rewrite Z.shiftr_div_pow2 by lia.
    rewrite Z.div_mul by lia. rewrite Z.eqb_refl. reflexivity.
  - change (64 - 64) with 0. rewrite Z.shiftl_0_r, Z.shiftr_0_r.
    rewrite uint64_small by (unfold maxUint64; lia).
    rewrite Z.eqb_refl. reflexivity.
Qed.

Lemma uint_field_Str (s : string) (v : Z) (d : json.decodeState) :
  uint_field (json.Str s) v d
  = json.literalStore_fromQuoted (json.BUint uintSize) "uint" s v d.
Proof. reflexivity. Qed.

(** The decimal text of a number that fits a uint is stored as that
    number. *)
Lemma uint_field_FormatUint (n v : Z) (d : json.decodeState) :
  0 <= n < 2 ^ uintSize ->
  uint_field (json.Str (strconv.FormatUint n)) v d = (n, d, None).
Proof.
  intros H. rewrite uint_field_Str.
  assert (Hu : 0 <= n <= maxUint64).
  { unfold maxUint64. destruct uintSize_cases as [E | E]; rewrite E in H; lia. }
  pose proof (ParseUint_FormatUint n Hu) as HP.
  destruct (formatBits_head 19 n "" ltac:(lia)) as (c & r & E & Hd).
  unfold strconv.FormatUint in *. rewrite E in *.
  destruct (is_digit_head c Hd) as (Hn & Ht & Hf & Hq).
  unfold json.literalStore_fromQuoted. rewrite Hn, Ht, Hf, Hq, Hd.
  cbn [orb]. rewrite orb_true_r.
  cbn [json.literalStore]. rewrite HP, (OverflowUint_fits n H). reflexivity.
Qed.

(** A string that is not a decimal-digit string, other than "null", is
    refused: the error is saved or aborts the decode, and the field keeps
    its value. *)
Lemma uint_field_nondecimal (s : string) (v : Z) (d : json.decodeState) :
  is_decimal s = false -> s <> "null" ->
  exists e,
    uint_field (json.Str s) v d = json.saved v d e
    \/ uint_field (json.Str s) v d = json.fatal v d e.
Proof.
  intros Hs Hnull. rewrite uint_field_Str.
  destruct s as [| c rest]; [eexists; left; reflexivity |].
  unfold json.literalStore_fromQuoted.
  destruct (Ascii.eqb c "n").
  { apply String.eqb_neq in Hnull. rewrite Hnull. eexists; left; reflexivity. }
  destruct (Ascii.eqb c "t" || Ascii.eqb c "f").
  { destruct (String.eqb (String c rest) "true"
              || String.eqb (String c rest) "false");
      eexists; left; reflexivity. }
  destruct (Ascii.eqb c dquote).
  { destruct (json.unquoteBytes_ok (String c rest));
      eexists; [left | right]; reflexivity. }
  destruct (Ascii.eqb c "-" || strconv.is_digit c);
    [| eexists; right; reflexivity].
  cbn [json.literalStore].
  destruct (ParseUint_nondecimal _ Hs) as (n & e & ->).
  eexists; left; reflexivity.
Qed.

Lemma uint_access_decode (f : Status_field) (get : Status -> Z)
    (set : Z -> Status -> Status) :
  uint_access f = Some (get, set) ->
  Status_decode_field f = json.into get set uint_field
  /\ forall s, set (get s) s = s.
Proof.
  destruct f; intros H; try discriminate H; injection H as <- <-;
    (split; [reflexivity | intros []; reflexivity]).
Qed.

(** C5, as amended.  For every field of Status declared as a
    string-encoded uint, and every member name that selects it: "0"
    decodes to 0; the decimal text of any n below 2^uintSize decodes to
    n (on a 64-bit platform that reaches 18446744073709551615); and a
    string that is not a decimal-digit string, "abc" say, makes the
    decode fail and leaves the record as it was, unless the string is
    "null". *)
Theorem numeric_string_fields (f : Status_field) (get : Status -> Z)
    (set : Z -> Status -> Status) (key : string) (s0 : Status) :
  uint_access f = Some (get, set) ->
  Status_lookup key = Some f ->
  json_Unmarshal_Status (json.Object [(key, json.Str "0")]) s0
  = (set 0 s0, None)
  /\
  (forall n, 0 <= n < 2 ^ uintSize ->
     json_Unmarshal_Status
       (json.Object [(key, json.Str (strconv.FormatUint n))]) s0
     = (set n s0, None))
  /\
  (exists e,
     json_Unmarshal_Status (json.Object [(key, json.Str "abc")]) s0
     = (s0, Some e))
  /\
  (forall s, is_decimal s = false -> s <> "null" ->
     exists e,
       json_Unmarshal_Status (json.Object [(key, json.Str s)]) s0
       = (s0, Some e)).
Proof.
  intros Ha Hk. destruct (uint_access_decode f get set Ha) as [Hdec Heta].
  assert (Hnum : forall n, 0 <= n < 2 ^ uintSize ->
            json_Unmarshal_Status
              (json.Object [(key, json.Str (strconv.FormatUint n))]) s0
            = (set n s0, None)).
  { intros n Hn. rewrite (json_Unmarshal_Status_member key f _ _ Hk), Hdec.
    unfold json.into. rewrite (uint_field_FormatUint n _ _ Hn). reflexivity. }
  assert (Hbad : forall s, is_decimal s = false -> s <> "null" ->
            exists e,
              json_Unmarshal_Status (json.Object [(key, json.Str s)]) s0
              = (s0, Some e)).
  { intros s Hs Hnull.
    rewrite (json_Unmarshal_Status_member key f _ _ Hk), Hdec.
    unfold json.into.
    destruct (uint_field_nondecimal s (get s0) json.init Hs Hnull)
      as [e [-> | ->]]; exists e; cbn; rewrite Heta; reflexivity. }
  split; [| split; [exact Hnum | split; [| exact Hbad]]].
  - apply (Hnum 0). split; [lia |].
    destruct uintSize_cases as [E | E]; rewrite E; lia.
  - apply Hbad; [reflexivity | discriminate].
Qed.

End Numbers.

Lemma numeric_string_fields_witness :
  @uint_access raw f_TotalLength = Some (TotalLength, set_TotalLength)
  /\ Status_lookup "totalLength" = Some f_TotalLength
  /\ 0 <= 18446744073709551615 < 2 ^ @uintSize amd64
  /\ @json_Unmarshal_Status amd64 raw
       (json.Object [("totalLength", json.Str "0")]) Status_zero
     = (set_TotalLength 0 Status_zero, None)
  /\ @json_Unmarshal_Status amd64 raw
       (json.Object
          [("totalLength",
            json.Str (strconv.FormatUint 18446744073709551615))])
       Status_zero
     = (set_TotalLength 18446744073709551615 Status_zero, None)
  /\ exists e,
       @json_Unmarshal_Status amd64 raw
         (json.Object [("totalLength", json.Str "abc")]) Status_zero
       = (Status_zero, Some e).
Proof.
  assert (Ha : @uint_access raw f_TotalLength
               = Some (TotalLength, set_TotalLength)) by reflexivity.
  assert (Hk : Status_lookup "totalLength" = Some f_TotalLength)
    by reflexivity.
  assert (Hr : 0 <= 18446744073709551615 < 2 ^ @uintSize amd64)
    by (cbn; lia).
  pose proof (@numeric_string_fields amd64 raw f_TotalLength TotalLength
                set_TotalLength "totalLength" Status_zero Ha Hk)
    as (H0 & Hn & Habc & _).
  split; [exact Ha | split; [exact Hk | split; [exact Hr | split]]];
    [exact H0 | split; [exact (Hn _ Hr) | exact Habc]].
Defined.

(** C5 as it was stated fails at "null": a string that is not numeric,
    and the decode succeeds, leaving the field as it was. *)
Lemma numeric_string_field_accepts_null :
  is_decimal "null" = false
  /\ @json_Unmarshal_Status amd64 raw
       (json.Object [("totalLength", json.Str "null")]) Status_zero
     = (Status_zero, None).
Proof. split; reflexivity. Qed.

(** ** String-encoded booleans *)

Section Records.

Context {platform : Platform} {absent : Absent}.

Lemma bool_field_Str (b v : bool) (d : json.decodeState) :
  bool_field (json.Str (strconv.FormatBool b)) v d = (b, d, None).
Proof. destruct b; reflexivity. Qed.

Lemma bool_field_Bool (b v : bool) (d : json.decodeState) :
  bool_field (json.Bool b) v d
  = json.saved v d (json.InvalidStringTagUnquoted "bool").
Proof. reflexivity. Qed.

(** C10. Seeder and VerifyIntegrityPending are the two fields declared
    as string-encoded bool.  Each decodes from the string "true" or
    "false" to that boolean, without error and leaving the other fields
    alone; a bare JSON boolean is refused with an error and the field
    keeps its value; and each is written back as the string "true" or
    "false". *)
Theorem boolean_string_fields (s0 : Status) (b : bool) :
  let decode key j := json_Unmarshal_Status (json.Object [(key, j)]) s0 in
  let quoted := json.Str (strconv.FormatBool b) in
  (snd (decode "seeder" quoted) = None
   /\ Seeder (fst (decode "seeder" quoted)) = b
   /\ fst (decode "seeder" quoted) = set_Seeder b s0)
  /\
  (snd (decode "verifyIntegrityPending" quoted) = None
   /\ VerifyIntegrityPending (fst (decode "verifyIntegrityPending" quoted))
      = b
   /\ fst (decode "verifyIntegrityPending" quoted)
      = set_VerifyIntegrityPending b s0)
  /\
  ((exists e, snd (decode "seeder" (json.Bool b)) = Some e)
   /\ fst (decode "seeder" (json.Bool b)) = s0)
  /\
  ((exists e, snd (decode "verifyIntegrityPending" (json.Bool b)) = Some e)
   /\ fst (decode "verifyIntegrityPending" (json.Bool b)) = s0)
  /\
  exists j,
    json_Marshal_Status s0 = (j, None)
    /\ json.member "Seeder" j
       = Some (json.Str (strconv.FormatBool (Seeder s0)))
    /\ json.member "VerifyIntegrityPending" j
       = Some (json.Str (strconv.FormatBool (VerifyIntegrityPending s0))).
Proof.
  cbv beta zeta.
  assert (E1 : json_Unmarshal_Status
                 (json.Object [("seeder", json.Str (strconv.FormatBool b))])
                 s0 = (set_Seeder b s0, None)).
  { rewrite (json_Unmarshal_Status_member "seeder" f_Seeder) by reflexivity.
    cbn [Status_decode_field]. unfold json.into.
    rewrite bool_field_Str. reflexivity. }
  assert (E2 : json_Unmarshal_Status
                 (json.Object [("verifyIntegrityPending",
                                json.Str (strconv.FormatBool b))]) s0
               = (set_VerifyIntegrityPending b s0, None)).
  { rewrite (json_Unmarshal_Status_member "verifyIntegrityPending"
               f_VerifyIntegrityPending) by reflexivity.
    cbn [Status_decode_field]. unfold json.into.
    rewrite bool_field_Str. reflexivity. }
  assert (E3 : json_Unmarshal_Status
                 (json.Object [("seeder", json.Bool b)]) s0
               = (s0, Some (json.InvalidStringTagUnquoted "bool"))).
  { rewrite (json_Unmarshal_Status_member "seeder" f_Seeder) by reflexivity.
    destruct s0; reflexivity. }
  assert (E4 : json_Unmarshal_Status
                 (json.Object [("verifyIntegrityPending", json.Bool b)]) s0
               = (s0, Some (json.InvalidStringTagUnquoted "bool"))).
  { rewrite (json_Unmarshal_Status_member "verifyIntegrityPending"
               f_VerifyIntegrityPending) by reflexivity.
    destruct s0; reflexivity. }
  rewrite E1, E2, E3, E4. cbn [fst snd].
  split; [repeat split | split; [repeat split | split; [| split]]].
  - split; [eexists; reflexivity | reflexivity].
  - split; [eexists; reflexivity | reflexivity].
  - eexists. split; [reflexivity |]. split; reflexivity.
Qed.

(** ** The end-to-end scenario *)







(** If every member for the field [f] carries a value that decodes to
    [x], and the member loop runs to its end, the field holds [x]
    afterwards, provided there was such a member or it held [x] before. *)
Lemma object_loop_settles {T} (f : Status_field) (get : Status -> T)
    (val : json.value) (x : T) :
  (forall g j s d, g <> f ->
     get (fst (fst (Status_decode_field g j s d))) = get s) ->
  (forall s d, get (fst (fst (Status_decode_field f val s d))) = x) ->
  forall members s d s' d',
    (forall m, In m members -> selects f m = true -> snd m = val) ->
    json.object_loop Status_lookup Status_decode_field members s d
    = (s', d', None) ->
    existsb (selects f) members = true \/ get s = x ->
    get s' = x.
Proof.
  intros Hframe Hhit.
  induction members as [| [key j] rest IH]; intros s d s' d' Hval Hrun Hsome.
  - cbn in Hrun, Hsome. injection Hrun as <- _.
    destruct Hsome as [Hsome | Hsome]; [discriminate Hsome | exact Hsome].
  - cbn [json.object_loop] in Hrun. cbn [existsb] in Hsome.
    assert (Hrest : forall m, In m rest -> selects f m = true -> snd m = val)
      by (intros m Hm; apply Hval; right; exact Hm).
    pose proof (Hval (key, j) (or_introl eq_refl)) as Hhere.
    unfold selects in Hsome at 1. unfold selects in Hhere. cbn [fst snd] in *.
    destruct (Status_lookup key) as [g |].
    + pose proof (Hframe g j s d) as Hf. pose proof (Hhit s d) as Hh.
      destruct (Status_decode_field g j s d) as [[s1 d1] [e |]] eqn:E;
        [discriminate Hrun |].
      apply (IH s1 d1 s' d' Hrest Hrun).
      destruct (Status_field_eq_dec g f) as [-> | Hne].
      * right. rewrite (Hhere eq_refl) in E. rewrite E in Hh. exact Hh.
      * cbn [orb] in Hsome. destruct Hsome as [Hsome | Hsome];
          [left; exact Hsome | right].
        cbn [fst] in Hf. rewrite (Hf Hne). exact Hsome.
    + apply (IH s d s' d' Hrest Hrun). exact Hsome.
Qed.


End Records.


(** C6 as it was stated fails: a message that contains the three
    members and, after them, a second member for TotalLength decodes
    without error to the later value. *)
Lemma scenario_later_member_wins :
  let r :=
    @json_Unmarshal_Status amd64 raw
      (json.Object [("totalLength", json.Str "1000");
                    ("completedLength", json.Str "500");
                    ("status", json.Str "active");
                    ("TotalLength", json.Str "7")]) Status_zero in
  snd r = None /\ TotalLength (fst r) = 7 /\ TotalLength (fst r) <> 1000.
Proof. repeat split. discriminate. Qed.

Section BitTorrent.

Context {platform : Platform} {absent : Absent}.

(** ** BitTorrentStatus *)

Lemma CreationDateUNIX_not_quoted : CreationDateUNIX_quoted = false.
Proof. reflexivity. Qed.

(** C2 on the code.  The string option on CreationDateUNIX has no effect,
    the field being a struct: it is written as a bare number, and a
    string on the wire, whatever it contains, is refused as a type
    mismatch and leaves the record as it was. *)
Theorem CreationDateUNIX_is_a_bare_number (b : BitTorrentStatus) :
  (exists j,
     json_Marshal_BitTorrentStatus b = (j, None)
     /\ json.member "CreationDateUNIX" j
        = Some (json.Number
                  (strconv.FormatInt
                     (time.Time_Unix (Time (CreationDateUNIX b))))))
  /\
  (forall s : string,
     json_Unmarshal_BitTorrentStatus
       (json.Object [("creationDateUNIX", json.Str s)]) b
     = (b, Some (json.UnmarshalTypeError "string" "int64")))
  /\
  json_Unmarshal_BitTorrentStatus
    (json.Object [("creationDateUNIX", json.Number "1600000000")]) b
  = (set_CreationDateUNIX {| Time := time.Unix 1600000000 0 |} b, None).
Proof.
  split; [| split].
  - eexists. split; reflexivity.
  - intros s.
    rewrite (json_Unmarshal_BitTorrentStatus_member "creationDateUNIX"
               f_CreationDateUNIX) by reflexivity.
    destruct b; reflexivity.
  - rewrite (json_Unmarshal_BitTorrentStatus_member "creationDateUNIX"
               f_CreationDateUNIX) by reflexivity.
    reflexivity.
Qed.


End BitTorrent.

(** * Further properties of status.go *)

(** ** UNIXTime.UnmarshalJSON: when it succeeds, and with what *)

Lemma json_Unmarshal_int64_ok_inv (data : json.text) (ts n : Z) :
  json_Unmarshal_int64 data ts = (n, None) ->
  (data = json.Valid json.Null /\ n = ts)
  \/ (exists lit, data = json.Valid (json.Number lit)
                  /\ strconv.ParseInt lit 64 = (n, None)).
Proof.
  unfold json_Unmarshal_int64, json.Unmarshal, json.value_basic.
  destruct data as [msg | [| b | lit | s | elems | members]];
    cbn [json.literalStore]; try discriminate.
  - intros H. injection H as <-. left. split; reflexivity.
  - destruct (strconv.ParseInt lit 64) as [m [e |]] eqn:E;
      [discriminate |].
    rewrite (OverflowInt_64 _ (ParseInt_range _ _ E)).
    intros H. injection H as <-. right. exists lit.
    split; [reflexivity | exact E].
Qed.

Lemma UNIXTime_UnmarshalJSON_ok_inv (t t' : UNIXTime) (data : json.text) :
  UNIXTime_UnmarshalJSON t data = (t', None) ->
  (data = json.Valid json.Null /\ t' = {| Time := time.Unix 0 0 |})
  \/ (exists lit n, data = json.Valid (json.Number lit)
                    /\ strconv.ParseInt lit 64 = (n, None)
                    /\ t' = {| Time := time.Unix n 0 |}).
Proof.
  unfold UNIXTime_UnmarshalJSON.
  destruct (json_Unmarshal_int64 data 0) as [ts [e |]] eqn:E;
    [discriminate |].
  intros H. injection H as <-.
  destruct (json_Unmarshal_int64_ok_inv _ _ _ E) as [[-> ->] | (lit & -> & HP)].
  - left. split; reflexivity.
  - right. exists lit, ts. repeat split. exact HP.
Qed.

(** X1. UnmarshalJSON returns no error exactly when the text is null or
    a number literal that strconv.ParseInt accepts as an int64; the
    receiver then becomes time.Unix(n, 0) for the number read (0 for
    null).  Nothing of what the receiver held before is kept. *)
Theorem UNIXTime_UnmarshalJSON_success (t t' : UNIXTime) (data : json.text) :
  UNIXTime_UnmarshalJSON t data = (t', None)
  <->
  (data = json.Valid json.Null /\ t' = {| Time := time.Unix 0 0 |})
  \/ (exists lit n, data = json.Valid (json.Number lit)
                    /\ strconv.ParseInt lit 64 = (n, None)
                    /\ t' = {| Time := time.Unix n 0 |}).
Proof.
  split.
  - apply UNIXTime_UnmarshalJSON_ok_inv.
  - intros [[-> ->] | (lit & n & -> & HP & ->)].
    + reflexivity.
    + apply UNIXTime_UnmarshalJSON_number, HP.
Qed.

(** X2. A value that UnmarshalJSON produced is a fixed point of the
    round trip: encoding it and decoding the text again, into any
    receiver, gives exactly that value back, location and all. *)
Theorem UNIXTime_decoded_is_fixed_point
    (t t' t0 : UNIXTime) (data : json.text) :
  UNIXTime_UnmarshalJSON t data = (t', None) ->
  UNIXTime_UnmarshalJSON t0 (fst (UNIXTime_MarshalJSON t')) = (t', None).
Proof.
  intros H.
  assert (G : exists n, is_int64 n /\ t' = {| Time := time.Unix n 0 |}).
  { destruct (UNIXTime_UnmarshalJSON_ok_inv _ _ _ H)
      as [[_ ->] | (lit & n & _ & HP & ->)].
    - exists 0. split; [| reflexivity].
      unfold is_int64, minInt64, maxInt64. lia.
    - exists n. split; [exact (ParseInt_range _ _ HP) | reflexivity]. }
  destruct G as (n & Hn & ->).
  unfold UNIXTime_MarshalJSON, json_Marshal_int64. cbn [Time fst].
  rewrite (Time_Unix_Unix _ Hn).
  apply UNIXTime_UnmarshalJSON_number, ParseInt_FormatInt, Hn.
Qed.

Lemma UNIXTime_decoded_is_fixed_point_witness :
  let t' := {| Time := time.Unix (-5) 0 |} in
  UNIXTime_UnmarshalJSON {| Time := time.zero |} (json.Number "-5")
  = (t', None)
  /\ UNIXTime_UnmarshalJSON {| Time := time.Unix 9 0 |}
       (fst (UNIXTime_MarshalJSON t')) = (t', None).
Proof.
  intros t'.
  assert (H : UNIXTime_UnmarshalJSON {| Time := time.zero |}
                (json.Number "-5") = (t', None)) by reflexivity.
  split; [exact H |].
  exact (UNIXTime_decoded_is_fixed_point _ _ {| Time := time.Unix 9 0 |} _ H).
Defined.

(** ** Status: what a uint field can hold after a decode *)

Lemma literalStore_fromQuoted_uint_inv (bits : Z) (ty item : string)
    (v v' : Z) (d d' : json.decodeState) (e : option json.error) :
  json.literalStore_fromQuoted (json.BUint bits) ty item v d = (v', d', e) ->
  v' = v
  \/ (strconv.ParseUint item 64 = (v', None)
      /\ json.OverflowUint bits v' = false).
Proof.
  unfold json.literalStore_fromQuoted, json.saved, json.fatal.
  destruct item as [| c rest]; [intros H; injection H as <- _ _; auto |].
  destruct (Ascii.eqb c "n").
  { destruct (String.eqb (String c rest) "null"); cbn [json.literalStore];
      intros H; injection H as <- _ _; auto. }
  destruct (Ascii.eqb c "t" || Ascii.eqb c "f").
  { destruct (String.eqb (String c rest) "true"
              || String.eqb (String c rest) "false");
      cbn [json.literalStore]; unfold json.saved;
      intros H; injection H as <- _ _; auto. }
  destruct (Ascii.eqb c dquote).
  { destruct (json.unquoteBytes_ok (String c rest));
      cbn [json.literalStore]; unfold json.saved;
      intros H; injection H as <- _ _; auto. }
  destruct (Ascii.eqb c "-" || strconv.is_digit c);
    [| intros H; injection H as <- _ _; auto].
  cbn [json.literalStore]. unfold json.saved.
  destruct (strconv.ParseUint (String c rest) 64) as [n [err |]];
    [intros H; injection H as <- _ _; auto |].
  destruct (json.OverflowUint bits n) eqn:EO;
    intros H; injection H as <- _ _; auto.
Qed.

Section Ranges.

Context {platform : Platform} {absent : Absent}.

Lemma OverflowUint_false_range (n : Z) :
  json.OverflowUint uintSize n = false -> 0 <= n < 2 ^ uintSize.
Proof.
  unfold json.OverflowUint. intros H.
  apply negb_false_iff, Z.eqb_eq in H. rewrite H.
  set (x := uint64 (Z.shiftl n (64 - uintSize))).
  assert (Hx : 0 <= x < 2 ^ 64)
    by (unfold x, uint64; apply Z.mod_pos_bound; lia).
  destruct uintSize_cases as [E | E]; rewrite E.
  - change (64 - 32) with 32. rewrite Z.shiftr_div_pow2 by lia. split.
    + apply Z.div_pos; lia.
    + apply Z.div_lt_upper_bound; lia.
  - change (64 - 64) with 0. rewrite Z.shiftr_0_r. exact Hx.
Qed.

Lemma uint_field_range (j : json.value) (v v' : Z)
    (d d' : json.decodeState) (e : option json.error) :
  uint_field j v d = (v', d', e) ->
  0 <= v < 2 ^ uintSize -> 0 <= v' < 2 ^ uintSize.
Proof.
  intros H Hv.
  assert (G : v' = v \/ json.OverflowUint uintSize v' = false).
  { destruct j as [| b | lit | s | elems | members];
      try (injection H as <- _ _; left; reflexivity).
    change (json.literalStore_fromQuoted (json.BUint uintSize) "uint" s v d
            = (v', d', e)) in H.
    destruct (literalStore_fromQuoted_uint_inv _ _ _ _ _ _ _ _ H)
      as [-> | [_ HO]]; auto. }
  destruct G as [-> | HO]; [exact Hv | exact (OverflowUint_false_range _ HO)].
Qed.

End Ranges.

(** ** Status: a number too large for the field is refused *)

(** Reading back the digits of a number above the largest uint64 ends
    in a range error. *)
Lemma ParseUint_loop_formatBits_overflow (fuel : nat) :
  forall (u : Z) (a : string),
    maxUint64 < u < 10 ^ Z.of_nat fuel ->
    strconv.ParseUint_loop maxUint64 (strconv.formatBits fuel u a) 0
    = (maxUint64, Some strconv.ErrRange).
Proof.
  induction fuel as [| fuel IH]; intros u a Hu.
  - unfold maxUint64 in Hu. simpl in Hu. lia.
  - assert (Hmax : maxUint64 = 18446744073709551615) by reflexivity.
    cbn [strconv.formatBits].
    assert (E10 : (10 <=? u) = true) by (apply Z.leb_le; lia).
    rewrite E10.
    pose proof (Z.mod_pos_bound u 10 ltac:(lia)) as Hm.
    pose proof (Z.div_mod u 10 ltac:(lia)) as Hdm.
    assert (Hq : u / 10 < 10 ^ Z.of_nat fuel).
    { apply Z.div_lt_upper_bound; [lia |].
      replace (10 * 10 ^ Z.of_nat fuel) with (10 ^ Z.of_nat (S fuel)).
      - lia.
      - rewrite Nat2Z.inj_succ, Z.pow_succ_r by lia. reflexivity. }
    destruct (Z_le_gt_dec (u / 10) maxUint64) as [Hle | Hgt].
    + rewrite ParseUint_loop_formatBits; try lia.
      cbn [strconv.ParseUint_loop].
      rewrite (digit_char_is_digit _ Hm), (digit_char_byte _ Hm).
      destruct (strconv.cutoff <=? u / 10) eqn:Ecut; [reflexivity |].
      apply Z.leb_gt in Ecut. unfold strconv.cutoff in Ecut.
      rewrite Hmax in *.
      change (18446744073709551615 / 10 + 1) with 1844674407370955162 in Ecut.
      cbv zeta.
      rewrite (uint64_small (u / 10 * 10)) by (rewrite Hmax; lia).
      assert (Ewrap : uint64 (u / 10 * 10 + (48 + u mod 10 - 48))
                      = u / 10 * 10 + u mod 10 - 2 ^ 64).
      { unfold uint64.
        replace (u / 10 * 10 + (48 + u mod 10 - 48))
          with (u / 10 * 10 + u mod 10 - 2 ^ 64 + 1 * 2 ^ 64) by ring.
        rewrite Z.mod_add by lia. apply Z.mod_small. lia. }
      rewrite Ewrap.
      assert (Elt : (u / 10 * 10 + u mod 10 - 2 ^ 64 <? u / 10 * 10) = true)
        by (apply Z.ltb_lt; lia).
      rewrite Elt. reflexivity.
    + apply IH. lia.
Qed.

Lemma ParseUint_FormatUint_overflow (n : Z) :
  maxUint64 < n < 10 ^ 20 ->
  strconv.ParseUint (strconv.FormatUint n) 64
  = (maxUint64, Some strconv.ErrRange).
Proof.
  intros Hn. unfold strconv.FormatUint.
  assert (H0 : 0 <= n) by (unfold maxUint64 in Hn; lia).
  destruct (formatBits_head 19 n "" H0) as (c & r & E & _).
  unfold strconv.ParseUint. rewrite E, <- E.
  change (2 ^ 64 - 1) with maxUint64.
  apply ParseUint_loop_formatBits_overflow. exact Hn.
Qed.

Section Overflow.

Context {platform : Platform} {absent : Absent}.

Lemma uint_field_too_large (n v : Z) (d : json.decodeState) :
  2 ^ uintSize <= n < 10 ^ 20 ->
  uint_field (json.Str (strconv.FormatUint n)) v d
  = json.saved v d
      (json.UnmarshalTypeError ("number " ++ strconv.FormatUint n) "uint").
Proof.
  intros Hn. rewrite uint_field_Str.
  assert (H0 : 0 <= n).
  { destruct uintSize_cases as [E | E]; rewrite E in Hn; lia. }
  assert (HP : strconv.ParseUint (strconv.FormatUint n) 64 = (n, None)
               /\ json.OverflowUint uintSize n = true
               \/ exists m, strconv.ParseUint (strconv.FormatUint n) 64
                            = (m, Some strconv.ErrRange)).
  { destruct (Z_le_gt_dec n maxUint64) as [Hle | Hgt].
    - left. split; [apply ParseUint_FormatUint; lia |].
      destruct (json.OverflowUint uintSize n) eqn:EO; [reflexivity |].
      pose proof (OverflowUint_false_range _ EO). lia.
    - right. eexists. apply ParseUint_FormatUint_overflow. lia. }
  destruct (formatBits_head 19 n "" H0) as (c & r & E & Hd).
  unfold strconv.FormatUint in *. rewrite E in *.
  destruct (is_digit_head c Hd) as (Hn' & Ht & Hf & Hq).
  unfold json.literalStore_fromQuoted. rewrite Hn', Ht, Hf, Hq, Hd.
  cbn [orb]. rewrite orb_true_r. cbn [json.literalStore].
  destruct HP as [[-> ->] | [m ->]]; reflexivity.
Qed.

(** X4. For every uint field of Status and every member name that
    selects it: the decimal text of a number from 2^uintSize up (below
    10^20) is refused as a type mismatch, and the record is left as it
    was.  The number is not reduced to the width of the field. *)
Theorem numeric_string_too_large (f : Status_field) (get : Status -> Z)
    (set : Z -> Status -> Status) (key : string) (s0 : Status) (n : Z) :
  uint_access f = Some (get, set) ->
  Status_lookup key = Some f ->
  2 ^ uintSize <= n < 10 ^ 20 ->
  json_Unmarshal_Status
    (json.Object [(key, json.Str (strconv.FormatUint n))]) s0
  = (s0, Some (json.UnmarshalTypeError
                 ("number " ++ strconv.FormatUint n) "uint")).
Proof.
  intros Ha Hk Hn. destruct (uint_access_decode f get set Ha) as [Hdec Heta].
  rewrite (json_Unmarshal_Status_member key f _ _ Hk), Hdec.
  unfold json.into. rewrite (uint_field_too_large n _ _ Hn).
  cbn. rewrite Heta. reflexivity.
Qed.

End Overflow.

Lemma numeric_string_too_large_witness :
  @uint_access raw f_NumPieces = Some (NumPieces, set_NumPieces)
  /\ Status_lookup "numPieces" = Some f_NumPieces
  /\ 2 ^ @uintSize amd64 <= 18446744073709551616 < 10 ^ 20
  /\ @json_Unmarshal_Status amd64 raw
       (json.Object [("numPieces", json.Str "18446744073709551616")])
       Status_zero
     = (Status_zero,
        Some (json.UnmarshalTypeError "number 18446744073709551616" "uint")).
Proof.
  assert (Ha : @uint_access raw f_NumPieces
               = Some (NumPieces, set_NumPieces)) by reflexivity.
  assert (Hk : Status_lookup "numPieces" = Some f_NumPieces) by reflexivity.
  assert (Hn : 2 ^ @uintSize amd64 <= 18446744073709551616 < 10 ^ 20)
    by (cbn; lia).
  split; [exact Ha | split; [exact Hk | split; [exact Hn |]]].
  exact (@numeric_string_too_large amd64 raw f_NumPieces NumPieces
           set_NumPieces "numPieces" Status_zero 18446744073709551616
           Ha Hk Hn).
Defined.

(** ** Status: which strings a bool field takes *)

Section Members.

Context {platform : Platform} {absent : Absent}.

Lemma bool_field_Str_other (s : string) (v : bool) (d : json.decodeState) :
  s <> "true" -> s <> "false" -> s <> "null" ->
  exists e,
    bool_field (json.Str s) v d = json.saved v d e
    \/ bool_field (json.Str s) v d = json.fatal v d e.
Proof.
  intros Ht Hf Hn.
  change (bool_field (json.Str s) v d)
    with (json.literalStore_fromQuoted json.BBool "bool" s v d).
  apply String.eqb_neq in Ht, Hf, Hn.
  destruct s as [| c rest]; [eexists; left; reflexivity |].
  unfold json.literalStore_fromQuoted.
  destruct (Ascii.eqb c "n"); [rewrite Hn; eexists; left; reflexivity |].
  destruct (Ascii.eqb c "t" || Ascii.eqb c "f");
    [rewrite Ht, Hf; eexists; left; reflexivity |].
  destruct (Ascii.eqb c dquote).
  { destruct (json.unquoteBytes_ok (String c rest));
      eexists; [left | right]; reflexivity. }
  destruct (Ascii.eqb c "-" || strconv.is_digit c);
    eexists; right; reflexivity.
Qed.

Lemma bool_member_accepted (key : string) (f : Status_field)
    (get : Status -> bool) (set : bool -> Status -> Status)
    (s : string) (s0 : Status) :
  Status_lookup key = Some f ->
  Status_decode_field f = json.into get set bool_field ->
  (snd (json_Unmarshal_Status (json.Object [(key, json.Str s)]) s0) = None
   <-> s = "true" \/ s = "false" \/ s = "null").
Proof.
  intros Hk Hdec.
  rewrite (json_Unmarshal_Status_member key f _ _ Hk), Hdec.
  unfold json.into. split.
  - intros H.
    destruct (string_dec s "true") as [| Ht]; [auto |].
    destruct (string_dec s "false") as [| Hf]; [auto |].
    destruct (string_dec s "null") as [| Hn]; [auto |].
    exfalso.
    destruct (bool_field_Str_other s (get s0) json.init Ht Hf Hn)
      as [e [E | E]]; rewrite E in H; discriminate H.
  - intros [-> | [-> | ->]]; reflexivity.
Qed.

(** X5. Seeder and VerifyIntegrityPending take exactly three strings:
    "true", "false" and "null".  Every other string, "True" or "1" for
    instance, makes the decode return an error. *)
Theorem boolean_strings_accepted (s : string) (s0 : Status) :
  (snd (json_Unmarshal_Status (json.Object [("seeder", json.Str s)]) s0)
   = None
   <-> s = "true" \/ s = "false" \/ s = "null")
  /\
  (snd (json_Unmarshal_Status
          (json.Object [("verifyIntegrityPending", json.Str s)]) s0)
   = None
   <-> s = "true" \/ s = "false" \/ s = "null").
Proof.
  split.
  - apply (bool_member_accepted "seeder" f_Seeder Seeder set_Seeder);
      reflexivity.
  - apply (bool_member_accepted "verifyIntegrityPending"
             f_VerifyIntegrityPending VerifyIntegrityPending
             set_VerifyIntegrityPending); reflexivity.
Qed.

(** ** Status: members without a field, and null members *)

Lemma object_loop_known (members : list (string * json.value)) :
  forall (s : Status) (d : json.decodeState),
    json.object_loop Status_lookup Status_decode_field members s d
    = json.object_loop Status_lookup Status_decode_field
        (filter known members) s d.
Proof.
  induction members as [| [key j] rest IH]; intros s d; [reflexivity |].
  cbn [filter]. unfold known at 1. cbn [fst json.object_loop].
  destruct (Status_lookup key) as [g |] eqn:E.
  - cbn [json.object_loop]. rewrite E.
    destruct (Status_decode_field g j s d) as [[s1 d1] [e |]];
      [reflexivity | apply IH].
  - apply IH.
Qed.

(** X6. Members whose name matches no field of Status do not count:
    a message decodes to the same record and the same error as the
    message without them.  A message of such members only leaves the
    record as it was, without error. *)
Theorem unknown_members_are_skipped
    (members : list (string * json.value)) (s0 : Status) :
  json_Unmarshal_Status (json.Object members) s0
  = json_Unmarshal_Status (json.Object (filter known members)) s0
  /\ json_Unmarshal_Status
       (json.Object (filter (fun m => negb (known m)) members)) s0
     = (s0, None).
Proof.
  assert (E : forall ms,
            json_Unmarshal_Status (json.Object ms) s0
            = json_Unmarshal_Status (json.Object (filter known ms)) s0).
  { intros ms. unfold json_Unmarshal_Status, json.Unmarshal, Status_decode.
    cbn [json.value_struct]. rewrite object_loop_known. reflexivity. }
  split; [apply E |].
  rewrite E.
  assert (H : filter known (filter (fun m => negb (known m)) members) = []).
  { induction members as [| m rest IH]; [reflexivity |].
    cbn [filter]. destruct (known m) eqn:K; cbn [negb filter];
      [| rewrite K]; exact IH. }
  rewrite H. reflexivity.
Qed.

(** X7. A member that is null: a field that is a string, a number, a
    boolean or the nested BitTorrent record keeps its value; a slice
    (FollowedBy, Files) becomes nil.  No error is returned.  (ErrorCode
    is of a type declared elsewhere and is left out.) *)
Theorem null_member (key : string) (f : Status_field) (s0 : Status) :
  Status_lookup key = Some f ->
  f <> f_ErrorCode ->
  json_Unmarshal_Status (json.Object [(key, json.Null)]) s0
  = (match f with
     | f_FollowedBy => set_FollowedBy None s0
     | f_Files => set_Files None s0
     | _ => s0
     end, None).
Proof.
  intros Hk Hne. rewrite (json_Unmarshal_Status_member key f _ _ Hk).
  destruct f; try (exfalso; apply Hne; reflexivity);
    destruct s0; reflexivity.
Qed.

(** ** Status: the list FollowedBy *)

Lemma array_loop_strings (ty : string) (l : list string) :
  forall (old : list string) (d : json.decodeState),
    json.array_loop (json.value_string ty) "" (map json.Str l) old d
    = (l, d, None).
Proof.
  induction l as [| x l IH]; intros old d; [reflexivity |].
  cbn [map json.array_loop].
  destruct old as [| o old']; cbn [json.value_string]; rewrite IH;
    reflexivity.
Qed.

(** X8. An array of strings in followedBy replaces the list: the field
    holds exactly the strings of the array, in order, whatever it held
    before and however long that was; the empty array gives an empty
    list that is not nil. *)
Theorem followedBy_array (l : list string) (s0 : Status) :
  json_Unmarshal_Status
    (json.Object [("followedBy", json.Array (map json.Str l))]) s0
  = (set_FollowedBy (Some l) s0, None).
Proof.
  rewrite (json_Unmarshal_Status_member "followedBy" f_FollowedBy)
    by reflexivity.
  cbn [Status_decode_field]. unfold json.into, json.value_slice.
  rewrite array_loop_strings. reflexivity.
Qed.

(** ** Status: which errors stop the decode *)

(** X9. A bare boolean in seeder or verifyIntegrityPending is refused
    with an error, but the decode goes on: a gid member that follows
    is stored, and the refused field keeps its value. *)
Theorem refused_boolean_does_not_stop_decode (b : bool) (g : string)
    (s0 : Status) :
  let decode key :=
    json_Unmarshal_Status
      (json.Object [(key, json.Bool b); ("gid", json.Str g)]) s0 in
  ((exists e, snd (decode "seeder") = Some e)
   /\ GID (fst (decode "seeder")) = g
   /\ Seeder (fst (decode "seeder")) = Seeder s0)
  /\
  ((exists e, snd (decode "verifyIntegrityPending") = Some e)
   /\ GID (fst (decode "verifyIntegrityPending")) = g
   /\ VerifyIntegrityPending (fst (decode "verifyIntegrityPending"))
      = VerifyIntegrityPending s0).
Proof.
  cbv beta zeta.
  unfold json_Unmarshal_Status, json.Unmarshal, Status_decode.
  cbn [json.value_struct json.object_loop].
  change (Status_lookup "seeder") with (Some f_Seeder).
  change (Status_lookup "verifyIntegrityPending")
    with (Some f_VerifyIntegrityPending).
  change (Status_lookup "gid") with (Some f_GID).
  split; (split; [eexists; reflexivity | split; reflexivity]).
Qed.

End Members.

Lemma null_member_witness :
  Status_lookup "followedBy" = Some f_FollowedBy
  /\ f_FollowedBy <> f_ErrorCode
  /\ @json_Unmarshal_Status amd64 raw
       (json.Object [("followedBy", json.Null)])
       (set_FollowedBy (Some ["2089b05ecca3d829"]) Status_zero)
     = (Status_zero, None).
Proof.
  assert (Hk : Status_lookup "followedBy" = Some f_FollowedBy)
    by reflexivity.
  assert (Hne : f_FollowedBy <> f_ErrorCode) by discriminate.
  split; [exact Hk | split; [exact Hne |]].
  exact (@null_member amd64 raw "followedBy" f_FollowedBy
           (set_FollowedBy (Some ["2089b05ecca3d829"]) Status_zero) Hk Hne).
Defined.

(** ** Status: numbers and booleans survive Marshal and Unmarshal *)

Section RoundTrip.

Context {platform : Platform} {absent : Absent}.

Ltac untouched :=
  let g := fresh "g" in
  let H := fresh "H" in
  intros g ? ? ? H; destruct g; try (exfalso; apply H; reflexivity);
  cbn [Status_decode_field]; unfold json.into;
  match goal with
  | |- context [match ?t with _ => _ end] => destruct t as [[? ?] ?]
  end; reflexivity.

Lemma uint_field_untouched (f : Status_field) (get : Status -> Z)
    (set : Z -> Status -> Status) :
  uint_access f = Some (get, set) ->
  forall g j s d, g <> f ->
    get (fst (fst (Status_decode_field g j s d))) = get s.
Proof.
  intros Ha. destruct f; try discriminate Ha; injection Ha as <- <-;
    untouched.
Qed.

Lemma uint_access_get_set (f : Status_field) (get : Status -> Z)
    (set : Z -> Status -> Status) :
  uint_access f = Some (get, set) ->
  forall n s, get (set n s) = n.
Proof.
  intros Ha. destruct f; try discriminate Ha; injection Ha as <- <-;
    reflexivity.
Qed.

Lemma Seeder_untouched :
  forall g j s d, g <> f_Seeder ->
    Seeder (fst (fst (Status_decode_field g j s d))) = Seeder s.
Proof. untouched. Qed.

Lemma VerifyIntegrityPending_untouched :
  forall g j s d, g <> f_VerifyIntegrityPending ->
    VerifyIntegrityPending (fst (fst (Status_decode_field g j s d)))
    = VerifyIntegrityPending s.
Proof. untouched. Qed.

(** The members json.Marshal writes for a Status. *)
Lemma json_Marshal_Status_members (s : Status) :
  exists bitTorrent,
    json_Marshal_Status s
    = (json.Object
         [("GID", json.Str (GID s));
          ("Status", json.Str (Status_ s));
          ("TotalLength", json.Str (strconv.FormatUint (TotalLength s)));
          ("CompletedLength",
           json.Str (strconv.FormatUint (CompletedLength s)));
          ("UploadLength", json.Str (strconv.FormatUint (UploadLength s)));
          ("BitField", json.Str (BitField s));
          ("DownloadSpeed", json.Str (strconv.FormatUint (DownloadSpeed s)));
          ("UploadSpeed", json.Str (strconv.FormatUint (UploadSpeed s)));
          ("InfoHash", json.Str (InfoHash s));
          ("NumSeeders", json.Str (strconv.FormatUint (NumSeeders s)));
          ("Seeder", json.Str (strconv.FormatBool (Seeder s)));
          ("PieceLength", json.Str (strconv.FormatUint (PieceLength s)));
          ("NumPieces", json.Str (strconv.FormatUint (NumPieces s)));
          ("Connections", json.Str (strconv.FormatUint (Connections s)));
          ("ErrorCode", ErrorCode_encode (ErrorCode s));
          ("ErrorMessage", json.Str (ErrorMessage s));
          ("FollowedBy", json.encode_slice json.Str (FollowedBy s));
          ("Following", json.Str (Following s));
          ("BelongsTo", json.Str (BelongsTo s));
          ("Dir", json.Str (Dir s));
          ("Files", json.encode_slice File_encode (Files s));
          ("BitTorrent", bitTorrent);
          ("VerifiedLength",
           json.Str (strconv.FormatUint (VerifiedLength s)));
          ("VerifyIntegrityPending",
           json.Str (strconv.FormatBool (VerifyIntegrityPending s)))],
       None).
Proof. eexists. reflexivity. Qed.

Ltac only_member :=
  let m := fresh "m" in
  let Hm := fresh "Hm" in
  let Hsel := fresh "Hsel" in
  intros m Hm;
  repeat (destruct Hm as [<- | Hm];
          [intros Hsel; vm_compute in Hsel;
           first [reflexivity | discriminate Hsel] |]);
  destruct Hm.

(** X10. Encoding a Status whose uint fields are in range and decoding
    the text into any record: when the decode returns no error, every
    uint field and both bool fields of the result are those of the
    encoded record. *)
Theorem Status_numbers_round_trip (s s0 s' : Status) :
  uints_in_range s ->
  json_Unmarshal_Status (fst (json_Marshal_Status s)) s0 = (s', None) ->
  (forall f get set, uint_access f = Some (get, set) -> get s' = get s)
  /\ Seeder s' = Seeder s
  /\ VerifyIntegrityPending s' = VerifyIntegrityPending s.
Proof.
  intros Hr Hrun.
  destruct (json_Marshal_Status_members s) as [bitTorrent EM].
  rewrite EM in Hrun. cbn [fst] in Hrun.
  unfold json_Unmarshal_Status, json.Unmarshal, Status_decode in Hrun.
  cbn [json.value_struct] in Hrun.
  match type of Hrun with
  | context [json.object_loop _ _ ?ms _ _] => set (members := ms) in *
  end.
  destruct (json.object_loop Status_lookup Status_decode_field members s0
              json.init) as [[s1 d1] [e |]] eqn:E; [discriminate Hrun |].
  injection Hrun as -> _.
  split; [| split].
  - intros f get set Ha.
    pose proof (Hr f get set Ha) as Hin.
    pose proof (uint_field_untouched f get set Ha) as Hframe.
    destruct (uint_access_decode f get set Ha) as [Hdec _].
    apply (object_loop_settles f get
             (json.Str (strconv.FormatUint (get s))) (get s) Hframe)
      with (3 := E).
    + intros s2 d2. rewrite Hdec. unfold json.into.
      rewrite (uint_field_FormatUint _ _ _ Hin). cbn [fst].
      apply (uint_access_get_set f get set Ha).
    + destruct f; try discriminate Ha; injection Ha as <- <-;
        unfold members; only_member.
    + left. destruct f; try discriminate Ha; reflexivity.
  - apply (object_loop_settles f_Seeder Seeder
             (json.Str (strconv.FormatBool (Seeder s))) (Seeder s)
             Seeder_untouched) with (3 := E).
    + intros s2 d2. cbn [Status_decode_field]. unfold json.into.
      rewrite bool_field_Str. reflexivity.
    + unfold members; only_member.
    + left. reflexivity.
  - apply (object_loop_settles f_VerifyIntegrityPending
             VerifyIntegrityPending
             (json.Str (strconv.FormatBool (VerifyIntegrityPending s)))
             (VerifyIntegrityPending s) VerifyIntegrityPending_untouched)
      with (3 := E).
    + intros s2 d2. cbn [Status_decode_field]. unfold json.into.
      rewrite bool_field_Str. reflexivity.
    + unfold members; only_member.
    + left. reflexivity.
Qed.

End RoundTrip.

Lemma Status_numbers_round_trip_witness :
  let s := set_TotalLength 5 (set_Seeder true Status_zero) in
  @uints_in_range amd64 raw s
  /\ exists s',
       @json_Unmarshal_Status amd64 raw
         (fst (@json_Marshal_Status amd64 raw s)) Status_zero = (s', None)
       /\ TotalLength s' = 5 /\ Seeder s' = true.
Proof.
  intros s.
  assert (Hr : @uints_in_range amd64 raw s).
  { intros f get set Hacc.
    destruct f; try discriminate Hacc; injection Hacc as <- <-;
      cbn; lia. }
  split; [exact Hr |].
  eexists. split; [reflexivity |].
  destruct (@Status_numbers_round_trip amd64 raw s Status_zero _ Hr eq_refl)
    as (Hu & Hs & _).
  split; [exact (Hu f_TotalLength _ _ eq_refl) | exact Hs].
Defined.

(** ** UNIXTime: instants given by seconds and nanoseconds *)

Lemma land_hasMonotonic_small (x : Z) :
  0 <= x < 2 ^ 63 -> Z.land x time.hasMonotonic = 0.
Proof.
  intros Hx. unfold time.hasMonotonic.
  apply Z.bits_inj'. intros n Hn.
  rewrite Z.land_spec, Z.bits_0.
  destruct (Z.eq_dec 63 n) as [<- | Hne].
  - assert (Hb : Z.testbit x 63 = false).
    { destruct (Z.eq_dec x 0) as [-> | H0]; [apply Z.bits_0 |].
      apply Z.bits_above_log2; [lia |].
      apply Z.log2_lt_pow2; lia. }
    rewrite Hb. reflexivity.
  - rewrite (Z.pow2_bits_false 63 n Hne). apply andb_false_r.
Qed.

Lemma land_nsecMask_small (x : Z) :
  0 <= x < 10 ^ 9 -> Z.land x time.nsecMask = x.
Proof.
  intros Hx. change time.nsecMask with (Z.ones 30).
  rewrite Z.land_ones by lia. apply Z.mod_small. lia.
Qed.

(** An instant laid down by unixTime with nanoseconds in range. *)
Lemma unixTime_fields (sec nsec : Z) :
  0 <= nsec < 10 ^ 9 ->
  time.Time_Unix (time.unixTime sec nsec) = int64 sec
  /\ time.nsec (time.unixTime sec nsec) = nsec.
Proof.
  intros Hn.
  assert (Hu : uint64 nsec = nsec)
    by (apply uint64_small; unfold maxUint64; lia).
  unfold time.Time_Unix, time.sec, time.nsec, time.unixTime.
  cbn [time.wall time.ext]. rewrite Hu.
  rewrite land_hasMonotonic_small by lia. cbn [Z.eqb].
  rewrite int64_add_l, (land_nsecMask_small _ Hn). split; [| reflexivity].
  f_equal. unfold time.internalToUnix. ring.
Qed.

Lemma Unix_fields (sec nsec : Z) :
  is_int64 nsec ->
  time.Time_Unix (time.Unix sec nsec) = int64 (sec + nsec / 10 ^ 9)
  /\ time.nsec (time.Unix sec nsec) = nsec mod 10 ^ 9.
Proof.
  unfold is_int64, minInt64, maxInt64. intros Hns.
  change (10 ^ 9) with 1000000000.
  pose proof (Z.div_mod nsec 1000000000 ltac:(lia)) as Hdm.
  pose proof (Z.mod_pos_bound nsec 1000000000 ltac:(lia)) as Hm.
  unfold time.Unix.
  destruct ((nsec <? 0) || (1000000000 <=? nsec)) eqn:Eout.
  - pose proof (Z.quot_rem' nsec 1000000000) as Hqr.
    assert (Hrem : int64 (nsec - Z.quot nsec 1000000000 * 1000000000)
                   = Z.rem nsec 1000000000).
    { replace (nsec - Z.quot nsec 1000000000 * 1000000000)
        with (Z.rem nsec 1000000000) by lia.
      apply int64_small. unfold is_int64, minInt64, maxInt64.
      pose proof (Z.rem_bound_abs nsec 1000000000 ltac:(lia)). lia. }
    cbv zeta. rewrite Hrem.
    destruct (Z.rem nsec 1000000000 <? 0) eqn:Eneg.
    + apply Z.ltb_lt in Eneg.
      pose proof (Z.rem_bound_abs nsec 1000000000 ltac:(lia)) as Hb.
      assert (Hq : nsec / 1000000000 = Z.quot nsec 1000000000 - 1).
      { symmetry.
        apply (Z.div_unique nsec 1000000000 _
                 (Z.rem nsec 1000000000 + 1000000000)); lia. }
      assert (Hr : nsec mod 1000000000 = Z.rem nsec 1000000000 + 1000000000)
        by lia.
      destruct (unixTime_fields
                  (int64 (int64 (sec + Z.quot nsec 1000000000) - 1))
                  (Z.rem nsec 1000000000 + 1000000000)) as [H1 H2];
        [change (10 ^ 9) with 1000000000; lia |].
      rewrite H1, H2, Hq, Hr. split; [| reflexivity].
      rewrite (int64_small _ (int64_range _)).
      replace (int64 (sec + Z.quot nsec 1000000000) - 1)
        with (int64 (sec + Z.quot nsec 1000000000) + -1) by ring.
      rewrite int64_add_l. f_equal. ring.
    + apply Z.ltb_ge in Eneg.
      pose proof (Z.rem_bound_abs nsec 1000000000 ltac:(lia)) as Hb.
      assert (Hq : nsec / 1000000000 = Z.quot nsec 1000000000).
      { symmetry.
        apply (Z.div_unique nsec 1000000000 _ (Z.rem nsec 1000000000));
          lia. }
      assert (Hr : nsec mod 1000000000 = Z.rem nsec 1000000000) by lia.
      destruct (unixTime_fields (int64 (sec + Z.quot nsec 1000000000))
                  (Z.rem nsec 1000000000)) as [H1 H2];
        [change (10 ^ 9) with 1000000000; lia |].
      rewrite H1, H2, Hq, Hr. split; [| reflexivity].
      apply int64_small, int64_range.
  - apply orb_false_iff in Eout. destruct Eout as [E1 E2].
    apply Z.ltb_ge in E1. apply Z.leb_gt in E2.
    destruct (unixTime_fields sec nsec) as [H1 H2];
      [change (10 ^ 9) with 1000000000; lia |].
    rewrite H1, H2.
    rewrite (Z.div_small nsec 1000000000), (Z.mod_small nsec 1000000000)
      by lia.
    rewrite Z.add_0_r. split; reflexivity.
Qed.

(** X11. For the instant time.Unix(sec, nsec), with any nanosecond
    count, negative or beyond a second, whose second sec + floor(nsec /
    10^9) fits an int64: MarshalJSON writes exactly that second.  What
    is dropped is the part of nsec below a second, nsec mod 10^9. *)
Theorem UNIXTime_of_seconds_and_nanoseconds (sec nsec : Z) :
  is_int64 nsec ->
  is_int64 (sec + nsec / 10 ^ 9) ->
  UNIXTime_MarshalJSON {| Time := time.Unix sec nsec |}
  = (json.Number (strconv.FormatInt (sec + nsec / 10 ^ 9)), None)
  /\ time.nsec (time.Unix sec nsec) = nsec mod 10 ^ 9.
Proof.
  intros Hns Hs. destruct (Unix_fields sec nsec Hns) as [H1 H2].
  split; [| exact H2].
  unfold UNIXTime_MarshalJSON, json_Marshal_int64. cbn [Time].
  rewrite H1, (int64_small _ Hs). reflexivity.
Qed.

Lemma UNIXTime_of_seconds_and_nanoseconds_witness :
  is_int64 (-2500000000)
  /\ is_int64 (10 + -2500000000 / 10 ^ 9)
  /\ UNIXTime_MarshalJSON {| Time := time.Unix 10 (-2500000000) |}
     = (json.Number "7", None).
Proof.
  assert (H1 : is_int64 (-2500000000))
    by (unfold is_int64, minInt64, maxInt64; lia).
  assert (H2 : is_int64 (10 + -2500000000 / 10 ^ 9))
    by (vm_compute; split; discriminate).
  split; [exact H1 | split; [exact H2 |]].
  exact (proj1 (UNIXTime_of_seconds_and_nanoseconds 10 (-2500000000) H1 H2)).
Defined.

(** ** Member names: matched without regard to ASCII case *)

Lemma all_bytes_complete (c : ascii) : In c all_bytes.
Proof.
  unfold all_bytes. apply in_map_iff. exists (nat_of_ascii c). split.
  - apply ascii_nat_embedding.
  - apply in_seq. pose proof (nat_ascii_bounded c). lia.
Qed.

Lemma mask_agrees_with_fold_all :
  forallb (fun sb => forallb (mask_agrees_with_fold sb) all_bytes) all_bytes
  = true.
Proof. vm_compute. reflexivity. Qed.

Lemma mask_eq_fold (sb tb : ascii) :
  json.is_letter (byte_of sb) = true ->
  (Z.land (byte_of sb) json.caseMask =? Z.land (byte_of tb) json.caseMask)
  = Ascii.eqb (fold_byte sb) (fold_byte tb).
Proof.
  intros Hl. pose proof mask_agrees_with_fold_all as H.
  rewrite forallb_forall in H. specialize (H sb (all_bytes_complete sb)).
  rewrite forallb_forall in H. specialize (H tb (all_bytes_complete tb)).
  unfold mask_agrees_with_fold in H. rewrite Hl in H. cbn [implb] in H.
  apply Bool.eqb_prop in H. exact H.
Qed.

Lemma eqb_fold_byte (sb tb : ascii) :
  Ascii.eqb sb tb = true -> Ascii.eqb (fold_byte sb) (fold_byte tb) = true.
Proof. intros H. apply Ascii.eqb_eq in H. subst. apply Ascii.eqb_refl. Qed.

Lemma simpleLetterEqualFold_fold (s : string) :
  letters_only s = true ->
  forall t, json.simpleLetterEqualFold s t
            = String.eqb (fold_case s) (fold_case t).
Proof.
  induction s as [| sb s IH]; intros Hl t; destruct t as [| tb t];
    try reflexivity.
  cbn [letters_only] in Hl. apply andb_true_iff in Hl. destruct Hl as [Hb Hl].
  cbn [json.simpleLetterEqualFold fold_case String.eqb].
  rewrite (mask_eq_fold sb tb Hb), (IH Hl).
  destruct (Ascii.eqb (fold_byte sb) (fold_byte tb)); reflexivity.
Qed.

Lemma equalFoldRight_fold (s : string) :
  letters_only s = true ->
  forall t, is_ascii t = true ->
    json.equalFoldRight s t = String.eqb (fold_case s) (fold_case t).
Proof.
  induction s as [| sb s IH]; intros Hl t Ha; destruct t as [| tb t];
    try reflexivity.
  cbn [letters_only] in Hl. apply andb_true_iff in Hl. destruct Hl as [Hb Hl].
  cbn [is_ascii] in Ha. apply andb_true_iff in Ha. destruct Ha as [Ht Ha].
  cbn [json.equalFoldRight fold_case String.eqb].
  rewrite Ht, Hb, (mask_eq_fold sb tb Hb), (IH Hl t Ha). cbn [andb].
  destruct (Ascii.eqb (fold_byte sb) (fold_byte tb)) eqn:E.
  - rewrite orb_true_r. reflexivity.
  - destruct (Ascii.eqb sb tb) eqn:E'; [| reflexivity].
    rewrite (eqb_fold_byte _ _ E') in E. discriminate E.
Qed.

Lemma letters_only_no_other (s : string) :
  letters_only s = true ->
  existsb (fun b => negb (json.is_letter b))
    (map byte_of (list_ascii_of_string s)) = false.
Proof.
  induction s as [| c s IH]; intros H; [reflexivity |].
  cbn [letters_only] in H. apply andb_true_iff in H. destruct H as [Hb Hl].
  cbn [list_ascii_of_string map existsb]. rewrite Hb, (IH Hl). reflexivity.
Qed.

Lemma foldFunc_fold (name key : string) :
  letters_only name = true -> is_ascii key = true ->
  json.foldFunc name name key = String.eqb (fold_case name) (fold_case key).
Proof.
  intros Hl Ha. unfold json.foldFunc.
  destruct (existsb _ (map byte_of (list_ascii_of_string name))).
  - apply equalFoldRight_fold; assumption.
  - rewrite (letters_only_no_other _ Hl).
    apply simpleLetterEqualFold_fold. exact Hl.
Qed.

(** For a struct whose field names are letters only and differ after
    folding, an ASCII member name finds the field it equals up to case,
    and no other. *)
Lemma find_field_fold {F} (name : F -> string) (fields : list F) :
  (forall f, In f fields) ->
  (forall f, letters_only (name f) = true) ->
  (forall f g, fold_case (name f) = fold_case (name g) -> f = g) ->
  forall key f, is_ascii key = true ->
    (json.find_field name fields key = Some f
     <-> fold_case key = fold_case (name f)).
Proof.
  intros Hall Hlet Hinj key f Ha. unfold json.find_field. split.
  - destruct (find (fun f0 => String.eqb (name f0) key) fields) as [g |] eqn:E.
    + intros H. injection H as ->.
      apply find_some in E. destruct E as [_ E].
      apply String.eqb_eq in E. rewrite E. reflexivity.
    + intros H. apply find_some in H. destruct H as [_ H].
      rewrite (foldFunc_fold _ _ (Hlet f) Ha) in H.
      apply String.eqb_eq in H. symmetry. exact H.
  - intros Hf.
    destruct (find (fun f0 => String.eqb (name f0) key) fields) as [g |] eqn:E.
    + apply find_some in E. destruct E as [_ E].
      apply String.eqb_eq in E. f_equal. apply Hinj.
      rewrite E. exact Hf.
    + destruct (find (fun f0 => json.foldFunc (name f0) (name f0) key) fields)
        as [g |] eqn:E2.
      * apply find_some in E2. destruct E2 as [_ E2].
        rewrite (foldFunc_fold _ _ (Hlet g) Ha) in E2.
        apply String.eqb_eq in E2. f_equal. apply Hinj.
        rewrite E2. exact Hf.
      * exfalso.
        pose proof (find_none _ _ E2 f (Hall f)) as Hn. cbv beta in Hn.
        rewrite (foldFunc_fold _ _ (Hlet f) Ha), <- Hf, String.eqb_refl in Hn.
        discriminate Hn.
Qed.

Lemma Status_field_name_injective (f g : Status_field) :
  fold_case (Status_field_name f) = fold_case (Status_field_name g) -> f = g.
Proof.
  destruct f, g; intros H; first [reflexivity | vm_compute in H; discriminate H].
Qed.

Lemma BitTorrentStatus_field_name_injective (f g : BitTorrentStatus_field) :
  fold_case (BitTorrentStatus_field_name f)
  = fold_case (BitTorrentStatus_field_name g) -> f = g.
Proof.
  destruct f, g; intros H; first [reflexivity | vm_compute in H; discriminate H].
Qed.

(** X12. An ASCII member name reaches a field of Status, or of
    BitTorrentStatus, exactly when it equals the field's Go name up to
    the case of its letters: totalLength and TOTALLENGTH reach
    TotalLength, while creationDate reaches nothing (the field is named
    CreationDateUNIX). *)
Theorem member_name_reaches_field (key : string) :
  is_ascii key = true ->
  (forall f : Status_field,
     Status_lookup key = Some f
     <-> fold_case key = fold_case (Status_field_name f))
  /\
  (forall f : BitTorrentStatus_field,
     json.find_field BitTorrentStatus_field_name BitTorrentStatus_fields key
     = Some f
     <-> fold_case key = fold_case (BitTorrentStatus_field_name f)).
Proof.
  intros Ha. split; intros f.
  - apply find_field_fold.
    + intros g. destruct g; cbn; tauto.
    + intros g. destruct g; reflexivity.
    + apply Status_field_name_injective.
    + exact Ha.
  - apply find_field_fold.
    + intros g. destruct g; cbn; tauto.
    + intros g. destruct g; reflexivity.
    + apply BitTorrentStatus_field_name_injective.
    + exact Ha.
Qed.

Lemma member_name_reaches_field_witness :
  is_ascii "creationDate" = true
  /\ (forall f : BitTorrentStatus_field,
        json.find_field BitTorrentStatus_field_name BitTorrentStatus_fields
          "creationDate" <> Some f).
Proof.
  assert (Ha : is_ascii "creationDate" = true) by reflexivity.
  split; [exact Ha |].
  intros f H.
  apply (proj2 (member_name_reaches_field "creationDate" Ha) f) in H.
  destruct f; vm_compute in H; discriminate H.
Defined.

(** * UNIXTime: what UnmarshalJSON refuses *)

Lemma ParseUint_loop_range_value (maxVal : Z) (s : string) :
  forall n v,
    strconv.ParseUint_loop maxVal s n = (v, Some strconv.ErrRange) ->
    v = maxVal.
Proof.
  induction s as [| c rest IH]; intros n v; cbn [strconv.ParseUint_loop];
    [discriminate |].
  destruct (strconv.is_digit c); [| discriminate].
  destruct (strconv.cutoff <=? n); [intros H; injection H as <-; reflexivity |].
  cbv zeta.
  destruct ((uint64 (uint64 (n * 10) + (byte_of c - 48)) <? uint64 (n * 10))
            || (maxVal <? uint64 (uint64 (n * 10) + (byte_of c - 48))));
    [intros H; injection H as <-; reflexivity | apply IH].
Qed.

(** ParseInt passes on the failure of ParseUint: a syntax error as it
    is, a range error because the value returned with it is the largest
    uint64. *)
Lemma ParseInt_fails_with_ParseUint (neg : bool) (un : Z)
    (e : strconv.NumError) :
  (e = strconv.ErrRange -> un = 2 ^ 64 - 1) ->
  exists v e',
    match Some e with
    | Some strconv.ErrSyntax => (0, Some strconv.ErrSyntax)
    | _ =>
        let cutoff := 2 ^ (64 - 1) in
        if negb neg && (cutoff <=? un)
        then (cutoff - 1, Some strconv.ErrRange)
        else if neg && (cutoff <? un) then (- cutoff, Some strconv.ErrRange)
        else (if neg then int64 (- int64 un) else int64 un, None)
    end = (v, Some e').
Proof.
  intros H. destruct e; [eauto |].
  rewrite (H eq_refl). destruct neg; cbn; eauto.
Qed.

Lemma ParseInt_fails_after_sign (c : ascii) (rest s' : string) (neg : bool) :
  (if Ascii.eqb c "+"%char then (false, rest)
   else if Ascii.eqb c "-"%char then (true, rest)
   else (false, String c rest)) = (neg, s') ->
  forall un e,
    strconv.ParseUint s' 64 = (un, Some e) ->
    exists v e', strconv.ParseInt (String c rest) 64 = (v, Some e').
Proof.
  intros Hsign un e HP. cbn [strconv.ParseInt]. rewrite Hsign, HP.
  apply ParseInt_fails_with_ParseUint. intros ->.
  destruct s' as [| c' r']; [discriminate HP |].
  unfold strconv.ParseUint in HP.
  apply ParseUint_loop_range_value in HP. exact HP.
Qed.

Lemma fraction_or_exponent_byte_other (c : ascii) :
  fraction_or_exponent_byte c = true ->
  strconv.is_digit c = false
  /\ Ascii.eqb c "+"%char = false /\ Ascii.eqb c "-"%char = false.
Proof.
  destruct c as [[] [] [] [] [] [] [] []]; vm_compute; intros H;
    (discriminate H || (repeat split; reflexivity)).
Qed.

Lemma fraction_or_exponent_not_digits (s : string) :
  existsb fraction_or_exponent_byte (list_ascii_of_string s) = true ->
  is_decimal s = false.
Proof.
  intros H.
  assert (G : all_digits s = false).
  { induction s as [| c rest IH]; [discriminate H |].
    cbn [list_ascii_of_string existsb] in H. cbn [all_digits].
    destruct (fraction_or_exponent_byte c) eqn:E.
    - destruct (fraction_or_exponent_byte_other c E) as [-> _]. reflexivity.
    - cbn [orb] in H. rewrite (IH H). apply andb_false_r. }
  destruct s; [reflexivity | exact G].
Qed.

Lemma ParseInt_fraction_or_exponent (lit : string) :
  has_fraction_or_exponent lit = true ->
  exists v e, strconv.ParseInt lit 64 = (v, Some e).
Proof.
  unfold has_fraction_or_exponent.
  destruct lit as [| c rest]; [discriminate |]. intros H.
  cbn [list_ascii_of_string existsb] in H.
  destruct (fraction_or_exponent_byte c) eqn:E.
  - destruct (fraction_or_exponent_byte_other c E) as (_ & Hp & Hm).
    assert (Hs : is_decimal (String c rest) = false).
    { apply fraction_or_exponent_not_digits.
      cbn [list_ascii_of_string existsb]. rewrite E. reflexivity. }
    destruct (ParseUint_nondecimal _ Hs) as (un & e & HP).
    apply (ParseInt_fails_after_sign c rest (String c rest) false)
      with (2 := HP).
    rewrite Hp, Hm. reflexivity.
  - cbn [orb] in H.
    pose proof (fraction_or_exponent_not_digits rest H) as Hrest.
    destruct (Ascii.eqb c "+"%char) eqn:Ep;
      [| destruct (Ascii.eqb c "-"%char) eqn:Em].
    + destruct (ParseUint_nondecimal _ Hrest) as (un & e & HP).
      apply (ParseInt_fails_after_sign c rest rest false) with (2 := HP).
      rewrite Ep. reflexivity.
    + destruct (ParseUint_nondecimal _ Hrest) as (un & e & HP).
      apply (ParseInt_fails_after_sign c rest rest true) with (2 := HP).
      rewrite Ep, Em. reflexivity.
    + assert (Hs : is_decimal (String c rest) = false).
      { apply fraction_or_exponent_not_digits.
        cbn [list_ascii_of_string existsb]. rewrite E. exact H. }
      destruct (ParseUint_nondecimal _ Hs) as (un & e & HP).
      apply (ParseInt_fails_after_sign c rest (String c rest) false)
        with (2 := HP).
      rewrite Ep, Em. reflexivity.
Qed.

(** What ParseUint makes of the decimal text of a number from 2^63 up. *)
Lemma ParseUint_FormatUint_large (m : Z) :
  2 ^ 63 <= m < 10 ^ 20 ->
  exists un err,
    strconv.ParseUint (strconv.FormatUint m) 64 = (un, err)
    /\ 2 ^ 63 <= un
    /\ err <> Some strconv.ErrSyntax.
Proof.
  intros Hm. destruct (Z_le_gt_dec m maxUint64) as [Hle | Hgt].
  - exists m, None. split; [apply ParseUint_FormatUint; lia |].
    split; [lia | discriminate].
  - exists maxUint64, (Some strconv.ErrRange).
    split; [apply ParseUint_FormatUint_overflow; lia |].
    split; [unfold maxUint64; lia | discriminate].
Qed.

Lemma ParseInt_decimal_out_of_range (n : Z) :
  - 10 ^ 20 < n < 10 ^ 20 -> ~ is_int64 n ->
  exists v e, strconv.ParseInt (decimal n) 64 = (v, Some e).
Proof.
  unfold is_int64, minInt64, maxInt64, decimal. intros Hn Hout.
  destruct (n <? 0) eqn:Eneg.
  - apply Z.ltb_lt in Eneg.
    destruct (ParseUint_FormatUint_large (- n) ltac:(lia))
      as (un & err & HP & Hun & Herr).
    assert (Hgt : 2 ^ 63 < un).
    { destruct (Z_le_gt_dec (- n) maxUint64) as [Hle | Hgt].
      - rewrite ParseUint_FormatUint in HP by lia.
        injection HP as <- _. lia.
      - rewrite ParseUint_FormatUint_overflow in HP by lia.
        injection HP as <- _. unfold maxUint64. lia. }
    cbn [strconv.ParseInt]. change (Ascii.eqb "-" "+") with false.
    change (Ascii.eqb "-" "-") with true. cbv iota. rewrite HP.
    change (2 ^ (64 - 1)) with (2 ^ 63).
    assert (E : (2 ^ 63 <? un) = true) by (apply Z.ltb_lt; lia).
    destruct err as [[|] |]; [congruence | |]; cbn [negb andb];
      rewrite E; eauto.
  - apply Z.ltb_ge in Eneg.
    destruct (ParseUint_FormatUint_large n ltac:(lia))
      as (un & err & HP & Hun & Herr).
    destruct (formatBits_head 19 n "" Eneg) as (c & r & E & Hd).
    unfold strconv.FormatUint in *. rewrite E in *.
    destruct (is_digit_not_sign c Hd) as [Hplus Hminus].
    cbn [strconv.ParseInt]. rewrite Hplus, Hminus. cbv iota. rewrite HP.
    change (2 ^ (64 - 1)) with (2 ^ 63).
    assert (E' : (2 ^ 63 <=? un) = true) by (apply Z.leb_le; lia).
    destruct err as [[|] |]; [congruence | |]; cbn [negb andb];
      rewrite E'; eauto.
Qed.

Lemma UNIXTime_refuses_number (t : UNIXTime) (lit : string) :
  (exists v e, strconv.ParseInt lit 64 = (v, Some e)) ->
  UNIXTime_refuses t (json.Number lit).
Proof.
  intros (v & e & HP).
  exists (json.UnmarshalTypeError ("number " ++ lit) "int64").
  unfold UNIXTime_UnmarshalJSON, json_Unmarshal_int64, json.Unmarshal,
    json.value_basic.
  cbn [json.literalStore]. rewrite HP. split; reflexivity.
Qed.

(** C7, as amended.  A plain decimal integer that fits an int64 decodes
    to the instant with that second count and no sub-second part.  A
    string, a boolean, an array and an object are refused as a type
    mismatch, and so is a number literal that has a fraction or an
    exponent, and the decimal text of an integer outside the int64
    range; the receiver is then left as it was. *)
Theorem UNIXTime_decode (t : UNIXTime) :
  (forall n : Z, is_int64 n ->
     UNIXTime_UnmarshalJSON t (json.Number (strconv.FormatInt n))
     = ({| Time := time.Unix n 0 |}, None)
     /\ time.Time_Unix (time.Unix n 0) = n
     /\ time.nsec (time.Unix n 0) = 0)
  /\
  (forall data : json.value,
     not_a_number data = true -> UNIXTime_refuses t data)
  /\
  (forall lit : string,
     has_fraction_or_exponent lit = true ->
     UNIXTime_refuses t (json.Number lit))
  /\
  (forall n : Z, - 10 ^ 20 < n < 10 ^ 20 -> ~ is_int64 n ->
     UNIXTime_refuses t (json.Number (decimal n))).
Proof.
  split; [| split; [| split]].
  - intros n Hn. split; [| split].
    + apply UNIXTime_UnmarshalJSON_number, ParseInt_FormatInt, Hn.
    + apply Time_Unix_Unix, Hn.
    + apply nsec_Unix.
  - intros data Hd.
    destruct data as [| b | lit | s | elems | members];
      try discriminate Hd; eexists; (split; reflexivity).
  - intros lit H.
    apply UNIXTime_refuses_number, ParseInt_fraction_or_exponent, H.
  - intros n Hn Hout.
    apply UNIXTime_refuses_number, ParseInt_decimal_out_of_range;
      assumption.
Qed.

Lemma UNIXTime_decode_witness :
  let t := {| Time := time.Unix 7 0 |} in
  (is_int64 1600000000
   /\ UNIXTime_UnmarshalJSON t (json.Number "1600000000")
      = ({| Time := time.Unix 1600000000 0 |}, None))
  /\ (not_a_number (json.Str "1600000000") = true
      /\ UNIXTime_refuses t (json.Str "1600000000"))
  /\ (has_fraction_or_exponent "1.5" = true
      /\ UNIXTime_refuses t (json.Number "1.5"))
  /\ (has_fraction_or_exponent "1e3" = true
      /\ UNIXTime_refuses t (json.Number "1e3"))
  /\ (~ is_int64 9223372036854775808
      /\ UNIXTime_refuses t (json.Number "9223372036854775808"))
  /\ (~ is_int64 (-9223372036854775809)
      /\ UNIXTime_refuses t (json.Number "-9223372036854775809")).
Proof.
  intros t.
  assert (H1 : is_int64 1600000000)
    by (unfold is_int64, minInt64, maxInt64; lia).
  assert (H2 : not_a_number (json.Str "1600000000") = true) by reflexivity.
  assert (H3 : has_fraction_or_exponent "1.5" = true) by reflexivity.
  assert (H4 : has_fraction_or_exponent "1e3" = true) by reflexivity.
  assert (H5 : ~ is_int64 9223372036854775808)
    by (unfold is_int64, minInt64, maxInt64; lia).
  assert (H6 : ~ is_int64 (-9223372036854775809))
    by (unfold is_int64, minInt64, maxInt64; lia).
  assert (R5 : - 10 ^ 20 < 9223372036854775808 < 10 ^ 20) by lia.
  assert (R6 : - 10 ^ 20 < -9223372036854775809 < 10 ^ 20) by lia.
  destruct (UNIXTime_decode t) as (D1 & D2 & D3 & D4).
  split; [split; [exact H1 | exact (proj1 (D1 _ H1))] |].
  split; [split; [exact H2 | exact (D2 _ H2)] |].
  split; [split; [exact H3 | exact (D3 _ H3)] |].
  split; [split; [exact H4 | exact (D3 _ H4)] |].
  split; [split; [exact H5 | exact (D4 _ R5 H5)] |].
  split; [exact H6 | exact (D4 _ R6 H6)].
Defined.

(** * UNIXTime: what MarshalJSON writes for an instant *)









(** * AnnounceList, with URI as the spec gives it *)

Lemma array_loop_tiers (announce : list (list string)) :
  forall (old : list tier) (d : json.decodeState),
    json.array_loop tier_decode None
      (map (fun t => json.Array (map json.Str t)) announce) old d
    = (map Some announce, d, None).
Proof.
  induction announce as [| t rest IH]; intros old d; [reflexivity |].
  cbn [map json.array_loop].
  destruct old as [| o old']; unfold tier_decode at 1, json.value_slice;
    rewrite array_loop_strings, IH; reflexivity.
Qed.

(** C3. With the elements of AnnounceList being tiers, as the spec gives
    them, an announceList that is an array of arrays of strings decodes
    without error to the sequence of those sequences, in order, whatever
    the field held before.  In particular the array holding one array
    holding one URI decodes to a one-element sequence holding a
    one-element sequence with that URI. *)
Theorem AnnounceList_tiers (announce : list (list string)) (u : string)
    (b0 : @BitTorrentStatus tiers) :
  let decode j :=
    @json_Unmarshal_BitTorrentStatus tiers
      (json.Object [("announceList", j)]) b0 in
  let wire := json.Array (map (fun t => json.Array (map json.Str t)) announce) in
  (snd (decode wire) = None
   /\ @AnnounceList tiers (fst (decode wire)) = Some (map Some announce))
  /\
  (snd (decode (json.Array [json.Array [json.Str u]])) = None
   /\ @AnnounceList tiers
        (fst (decode (json.Array [json.Array [json.Str u]])))
      = Some [Some [u]]).
Proof.
  cbv beta zeta.
  assert (G : forall l : list (list string),
            @json_Unmarshal_BitTorrentStatus tiers
              (json.Object
                 [("announceList",
                   json.Array (map (fun t => json.Array (map json.Str t)) l))])
              b0
            = (@set_AnnounceList tiers (Some (map Some l)) b0, None)).
  { intros l.
    rewrite (@json_Unmarshal_BitTorrentStatus_member tiers "announceList"
               f_AnnounceList) by reflexivity.
    cbn [BitTorrentStatus_decode_field]. unfold json.into, json.value_slice.
    change (@URI_decode tiers) with tier_decode.
    change (@URI_zero tiers) with (@None (list string)).
    rewrite array_loop_tiers. reflexivity. }
  split.
  - rewrite (G announce). split; reflexivity.
  - pose proof (G [[u]]) as G1. cbn [map] in G1. rewrite G1.
    split; reflexivity.
Qed.

(** * Status: a uint field holds what was written, or what it held *)

Lemma is_digit_value (c : ascii) :
  strconv.is_digit c = true -> 0 <= byte_of c - 48 <= 9.
Proof.
  unfold strconv.is_digit. intros H. apply andb_true_iff in H.
  destruct H as [H1 H2]. apply Z.leb_le in H1, H2. lia.
Qed.

(** When the loop of ParseUint ends without error, the string was all
    digits and the result is the number they denote: no step wrapped. *)
Lemma ParseUint_loop_value (s : string) :
  forall n v,
    0 <= n ->
    strconv.ParseUint_loop (2 ^ 64 - 1) s n = (v, None) ->
    all_digits s = true /\ v = digits_value s n.
Proof.
  induction s as [| c rest IH]; intros n v Hn H.
  - cbn in H. injection H as <-. split; reflexivity.
  - cbn [strconv.ParseUint_loop] in H. cbn [all_digits digits_value].
    destruct (strconv.is_digit c) eqn:Ed; [| discriminate H].
    pose proof (is_digit_value c Ed) as Hd.
    destruct (strconv.cutoff <=? n) eqn:Ec; [discriminate H |].
    apply Z.leb_gt in Ec. unfold strconv.cutoff, maxUint64 in Ec.
    change ((2 ^ 64 - 1) / 10 + 1) with 1844674407370955162 in Ec.
    cbv zeta in H.
    rewrite (uint64_small (n * 10)) in H by (unfold maxUint64; lia).
    destruct (Z_lt_ge_dec (n * 10 + (byte_of c - 48)) (2 ^ 64))
      as [Hfit | Hwrap].
    + rewrite (uint64_small (n * 10 + (byte_of c - 48))) in H
        by (unfold maxUint64; lia).
      destruct ((n * 10 + (byte_of c - 48) <? n * 10)
                || (2 ^ 64 - 1 <? n * 10 + (byte_of c - 48)));
        [discriminate H |].
      assert (Hn' : 0 <= n * 10 + (byte_of c - 48)) by lia.
      destruct (IH _ _ Hn' H) as [Ha Hv].
      rewrite Ha. split; [reflexivity | exact Hv].
    + exfalso.
      assert (Ew : uint64 (n * 10 + (byte_of c - 48))
                   = n * 10 + (byte_of c - 48) - 2 ^ 64).
      { unfold uint64.
        replace (n * 10 + (byte_of c - 48))
          with (n * 10 + (byte_of c - 48) - 2 ^ 64 + 1 * 2 ^ 64) at 1 by ring.
        rewrite Z.mod_add by lia. apply Z.mod_small. lia. }
      rewrite Ew in H.
      assert (El : (n * 10 + (byte_of c - 48) - 2 ^ 64 <? n * 10) = true)
        by (apply Z.ltb_lt; lia).
      rewrite El in H. discriminate H.
Qed.

Lemma ParseUint_value (s : string) (v : Z) :
  strconv.ParseUint s 64 = (v, None) ->
  is_decimal s = true /\ v = decimal_value s.
Proof.
  destruct s as [| c rest]; [discriminate |].
  unfold strconv.ParseUint, is_decimal, decimal_value.
  apply ParseUint_loop_value. lia.
Qed.

Section Written.

Context {platform : Platform} {absent : Absent}.

Lemma uint_field_inv (j : json.value) (v v' : Z)
    (d d' : json.decodeState) (e : option json.error) :
  uint_field j v d = (v', d', e) ->
  v' = v
  \/ exists str,
       j = json.Str str
       /\ is_decimal str = true
       /\ v' = decimal_value str
       /\ decimal_value str < 2 ^ uintSize.
Proof.
  intros H.
  destruct j as [| b | lit | s | elems | members];
    try (injection H as <- _ _; left; reflexivity).
  change (json.literalStore_fromQuoted (json.BUint uintSize) "uint" s v d
          = (v', d', e)) in H.
  destruct (literalStore_fromQuoted_uint_inv _ _ _ _ _ _ _ _ H)
    as [-> | [HP HO]]; [left; reflexivity |].
  right. exists s. destruct (ParseUint_value _ _ HP) as [Hdec Hv].
  pose proof (OverflowUint_false_range _ HO) as Hr.
  repeat split; try assumption. rewrite <- Hv. lia.
Qed.

Lemma object_loop_uint_written (f : Status_field) (get : Status -> Z)
    (set : Z -> Status -> Status) :
  uint_access f = Some (get, set) ->
  forall (members : list (string * json.value)) (s : Status)
         (d : json.decodeState),
    let s' := fst (fst (json.object_loop Status_lookup Status_decode_field
                          members s d)) in
    get s' = get s
    \/ exists key str,
         In (key, json.Str str) members
         /\ Status_lookup key = Some f
         /\ is_decimal str = true
         /\ get s' = decimal_value str
         /\ decimal_value str < 2 ^ uintSize.
Proof.
  intros Ha. destruct (uint_access_decode f get set Ha) as [Hdec _].
  pose proof (uint_access_get_set f get set Ha) as Hgs.
  pose proof (uint_field_untouched f get set Ha) as Hframe.
  induction members as [| [key j] rest IH]; intros s d; cbv zeta;
    [left; reflexivity |].
  cbn [json.object_loop].
  assert (Lift : forall s1 d1,
            (get (fst (fst (json.object_loop Status_lookup
                              Status_decode_field rest s1 d1))) = get s1
             \/ exists key0 str,
                  In (key0, json.Str str) rest
                  /\ Status_lookup key0 = Some f
                  /\ is_decimal str = true
                  /\ get (fst (fst (json.object_loop Status_lookup
                                      Status_decode_field rest s1 d1)))
                     = decimal_value str
                  /\ decimal_value str < 2 ^ uintSize)).
  { intros s1 d1. exact (IH s1 d1). }
  destruct (Status_lookup key) as [g |] eqn:Ek.
  - assert (Here : get (fst (fst (Status_decode_field g j s d))) = get s
                   \/ exists str,
                        j = json.Str str /\ g = f
                        /\ is_decimal str = true
                        /\ get (fst (fst (Status_decode_field g j s d)))
                           = decimal_value str
                        /\ decimal_value str < 2 ^ uintSize).
    { destruct (Status_field_eq_dec g f) as [-> | Hne];
        [| left; apply Hframe; exact Hne].
      rewrite Hdec. unfold json.into.
      destruct (uint_field j (get s) d) as [[v' d1] e] eqn:E. cbn [fst].
      rewrite Hgs.
      destruct (uint_field_inv _ _ _ _ _ _ E)
        as [-> | (str & -> & Hd & -> & Hr)]; [left; reflexivity |].
      right. exists str. repeat split; assumption. }
    destruct (Status_decode_field g j s d) as [[s1 d1] [e |]] eqn:E;
      cbn [fst] in Here |- *.
    + destruct Here as [-> | (str & -> & -> & Hd & Hv & Hr)];
        [left; reflexivity |].
      right. exists key, str.
      repeat split; try assumption. left; reflexivity.
    + destruct (Lift s1 d1) as [Hsame | (key0 & str & Hin & Hk & Hd & Hv & Hr)].
      * rewrite Hsame.
        destruct Here as [-> | (str & -> & -> & Hd & Hv & Hr)];
          [left; reflexivity |].
        right. exists key, str.
        repeat split; try assumption. left; reflexivity.
      * right. exists key0, str.
        repeat split; try assumption. right; exact Hin.
  - destruct (Lift s d) as [Hsame | (key0 & str & Hin & Hk & Hd & Hv & Hr)];
      [left; exact Hsame |].
    right. exists key0, str. repeat split; try assumption. right; exact Hin.
Qed.

(** X3. After decoding any text into a Status, with or without error,
    a uint field holds either the value it held before or exactly the
    number that a member of the message for that field wrote as a
    string of decimal digits, and that number is below 2^uintSize.  So
    what is stored is never a wrapped or truncated form of what the
    wire carries. *)
Theorem uint_field_holds_what_was_written (f : Status_field)
    (get : Status -> Z) (set : Z -> Status -> Status)
    (data : json.text) (s0 : Status) :
  uint_access f = Some (get, set) ->
  get (fst (json_Unmarshal_Status data s0)) = get s0
  \/ exists members key str,
       data = json.Valid (json.Object members)
       /\ In (key, json.Str str) members
       /\ Status_lookup key = Some f
       /\ is_decimal str = true
       /\ get (fst (json_Unmarshal_Status data s0)) = decimal_value str
       /\ decimal_value str < 2 ^ uintSize.
Proof.
  intros Ha. unfold json_Unmarshal_Status, json.Unmarshal, Status_decode.
  destruct data as [msg | j]; [left; reflexivity |].
  destruct j as [| b | lit | str | elems | members];
    cbn [json.value_struct json.saved fst]; try (left; reflexivity).
  pose proof (object_loop_uint_written f get set Ha members s0 json.init)
    as H. cbv zeta in H.
  destruct (json.object_loop Status_lookup Status_decode_field members s0
              json.init) as [[s d] [e |]]; cbn [fst] in H |- *;
    (destruct H as [H | (key & str & Hin & Hk & Hd & Hv & Hr)];
     [left; exact H |
      right; exists members, key, str; repeat split; assumption]).
Qed.

End Written.

(** On a 32-bit platform: 4294967295 is stored as it is, 4294967296 is
    not stored as 0. *)
Lemma uint_field_holds_what_was_written_witness :
  let s0 : @Status raw := set_TotalLength 5 Status_zero in
  let data := json.Object [("totalLength", json.Str "4294967296")] in
  let s := fst (@json_Unmarshal_Status i386 raw data s0) in
  @uint_access raw f_TotalLength = Some (TotalLength, set_TotalLength)
  /\ TotalLength
       (fst (@json_Unmarshal_Status i386 raw
               (json.Object [("totalLength", json.Str "4294967295")])
               s0)) = 4294967295
  /\ TotalLength s = 5
  /\ (TotalLength s = TotalLength s0
      \/ exists members key str,
           json.Valid data = json.Valid (json.Object members)
           /\ In (key, json.Str str) members
           /\ Status_lookup key = Some f_TotalLength
           /\ is_decimal str = true
           /\ TotalLength s = decimal_value str
           /\ decimal_value str < 2 ^ @uintSize i386).
Proof.
  intros s0 data s.
  assert (Ha : @uint_access raw f_TotalLength
               = Some (TotalLength, set_TotalLength)) by reflexivity.
  split; [exact Ha | split; [reflexivity | split; [reflexivity |]]].
  exact (@uint_field_holds_what_was_written i386 raw f_TotalLength
           TotalLength set_TotalLength data s0 Ha).
Defined.
